(** * helper_func.py: memory formatting, dtype reduction and dtype-preserving merge

    A shallow embedding of [src/helper_func.py] together with the part of
    NumPy and pandas the three helpers rely on.

    - [Np]  : dtypes, [iinfo]/[finfo], scalar comparison, [astype] on cells.
    - [Pd]  : [Series], [DataFrame], column lookup and assignment, [min]/[max],
              left [merge] and [concat] along the column axis.
    - then the three functions of the source file, under their own names.

    Floating-point cells are IEEE-754 values ([spec_float] of the standard
    library); a cast between float types is [binary_round], i.e. rounding to
    nearest, ties to even, as NumPy performs it.

    A call that raises is [None].  Tables carry the default positional index
    [0 .. n-1], and a table on another index is not represented: every
    statement about [merge_by_concat] is a statement about tables on the
    default index.  [reduce_dtypes] returns exactly on the tables whose
    column labels are pairwise distinct, which is why the statements about
    it assume distinct labels. *)

From Stdlib Require Import ZArith List String Ascii Bool Lia.
From Stdlib Require Import SpecFloat DecimalString.
Import ListNotations.

Local Open Scope string_scope.
Local Open Scope list_scope.
Local Open Scope Z_scope.

(* ===================================================================== *)
(** * NumPy: dtypes and scalars *)
(* ===================================================================== *)

Module Np.

Inductive int_dtype := int8 | int16 | int32 | int64.
Inductive float_dtype := float16 | float32 | float64.
(** Every other column type of a table; its cells are opaque here. *)
Inductive other_dtype := bool_ | object_ | datetime64.

Inductive dtype :=
| DInt (t : int_dtype)
| DFloat (t : float_dtype)
| DOther (t : other_dtype).

(** [str(dtype)] *)
Definition str (d : dtype) : string :=
  match d with
  | DInt int8 => "int8"
  | DInt int16 => "int16"
  | DInt int32 => "int32"
  | DInt int64 => "int64"
  | DFloat float16 => "float16"
  | DFloat float32 => "float32"
  | DFloat float64 => "float64"
  | DOther bool_ => "bool"
  | DOther object_ => "object"
  | DOther datetime64 => "datetime64[ns]"
  end.

Definition bits (t : int_dtype) : Z :=
  match t with int8 => 8 | int16 => 16 | int32 => 32 | int64 => 64 end.

(** [np.iinfo(t).min], [np.iinfo(t).max] *)
Definition iinfo_min (t : int_dtype) : Z := - 2 ^ (bits t - 1).
Definition iinfo_max (t : int_dtype) : Z := 2 ^ (bits t - 1) - 1.

(** Precision (with the implicit bit) and exponent of the infinities. *)
Definition prec (t : float_dtype) : Z :=
  match t with float16 => 11 | float32 => 24 | float64 => 53 end.
Definition emax (t : float_dtype) : Z :=
  match t with float16 => 16 | float32 => 128 | float64 => 1024 end.

(** [np.finfo(t).max], [np.finfo(t).min]: the largest finite value and its
    opposite. *)
Definition finfo_max (t : float_dtype) : spec_float :=
  SFmax_float (prec t) (emax t).
Definition finfo_min (t : float_dtype) : spec_float :=
  SFopp (finfo_max t).

(** The value of a cell of type [t] is representable in [t]. *)
Definition valid (t : float_dtype) (f : spec_float) : bool :=
  valid_binary (prec t) (emax t) f.

(** Cell cast between float types: round to nearest even in the target
    format; zeros, infinities and NaN are kept. *)
Definition astype_float (t : float_dtype) (f : spec_float) : spec_float :=
  match f with
  | S754_finite s m e => binary_round (prec t) (emax t) s m e
  | _ => f
  end.

(** Cell cast between integer types: two's complement wrap-around. *)
Definition astype_int (t : int_dtype) (z : Z) : Z :=
  (z + 2 ^ (bits t - 1)) mod 2 ^ bits t - 2 ^ (bits t - 1).

Definition float_of_Z (t : float_dtype) (z : Z) : spec_float :=
  binary_normalize (prec t) (emax t) z 0 false.

Definition nan : spec_float := S754_nan.

Definition isnan (f : spec_float) : bool :=
  match f with S754_nan => true | _ => false end.

(** A scalar as the source handles it: a Python or NumPy integer, or a
    floating-point number (of any width). *)
Inductive scalar :=
| PyInt (z : Z)
| PyFloat (f : spec_float).

(** NumPy's promotion of the operands of a mixed comparison to float64.
    float16 and float32 values are exactly representable there.  The
    integer operands of the comparisons of this file are [iinfo] bounds and
    cells of integer columns, of at most 64 bits, which NumPy converts
    without overflow. *)
Definition as_float64 (x : scalar) : spec_float :=
  match x with
  | PyInt z => float_of_Z float64 z
  | PyFloat f => astype_float float64 f
  end.

(** Python's conversion of a number to [float], as [/] and [%f] apply it to
    an [int] operand: correctly rounded, and [OverflowError] ([None]) when
    the rounded value is not finite, that is from [2^1024 - 2^970] on. *)
Definition py_float (x : scalar) : option spec_float :=
  match x with
  | PyInt z =>
      match float_of_Z float64 z with
      | S754_infinity _ => None
      | f => Some f
      end
  | PyFloat f => Some (astype_float float64 f)
  end.

(** [a > b] and [a < b]; a comparison with NaN is [False]. *)
Definition gt (a b : scalar) : bool :=
  match a, b with
  | PyInt x, PyInt y => x >? y
  | _, _ => SFltb (as_float64 b) (as_float64 a)
  end.

Definition lt (a b : scalar) : bool :=
  match a, b with
  | PyInt x, PyInt y => x <? y
  | _, _ => SFltb (as_float64 a) (as_float64 b)
  end.

End Np.

(* ===================================================================== *)
(** * pandas: Series and DataFrame *)
(* ===================================================================== *)

Module Pd.
Import Np.

(** A column: its dtype and its cells, in row order.  A missing cell of a
    float column is NaN, of an opaque column [None]; an integer column has
    no missing cells. *)
Inductive Series :=
| IntSeries (t : int_dtype) (values : list Z)
| FloatSeries (t : float_dtype) (values : list spec_float)
| ObjSeries (t : other_dtype) (values : list (option string)).

(** [s.dtypes] *)
Definition dtypes (s : Series) : dtype :=
  match s with
  | IntSeries t _ => DInt t
  | FloatSeries t _ => DFloat t
  | ObjSeries t _ => DOther t
  end.

(** [len(s)] *)
Definition len (s : Series) : nat :=
  match s with
  | IntSeries _ v => List.length v
  | FloatSeries _ v => List.length v
  | ObjSeries _ v => List.length v
  end.

Definition fmin (a b : spec_float) : spec_float := if SFltb b a then b else a.
Definition fmax (a b : spec_float) : spec_float := if SFltb a b then b else a.

(** The cells [min]/[max] look at: NaN is skipped ([skipna=True]). *)
Definition dropna (v : list spec_float) : list spec_float :=
  filter (fun f => negb (isnan f)) v.

(** [s.min()]: NaN for a column with no (non-missing) cell.  Columns of
    other types never reach it in this file. *)
Definition min (s : Series) : scalar :=
  match s with
  | IntSeries _ [] => PyFloat nan
  | IntSeries _ (x :: xs) => PyInt (fold_left Z.min xs x)
  | FloatSeries _ v =>
      match dropna v with
      | [] => PyFloat nan
      | x :: xs => PyFloat (fold_left fmin xs x)
      end
  | ObjSeries _ _ => PyFloat nan
  end.

(** [s.max()] *)
Definition max (s : Series) : scalar :=
  match s with
  | IntSeries _ [] => PyFloat nan
  | IntSeries _ (x :: xs) => PyInt (fold_left Z.max xs x)
  | FloatSeries _ v =>
      match dropna v with
      | [] => PyFloat nan
      | x :: xs => PyFloat (fold_left fmax xs x)
      end
  | ObjSeries _ _ => PyFloat nan
  end.

(** [s.astype(d)].  The source casts integer columns to integer types and
    float columns to float types only; the remaining combinations are
    given for integer to float (rounding) and left alone otherwise. *)
Definition astype (s : Series) (d : dtype) : Series :=
  match s, d with
  | IntSeries _ v, DInt t => IntSeries t (map (astype_int t) v)
  | FloatSeries _ v, DFloat t => FloatSeries t (map (astype_float t) v)
  | IntSeries _ v, DFloat t => FloatSeries t (map (float_of_Z t) v)
  | _, _ => s
  end.

(** Bytes per cell. *)
Definition itemsize (d : dtype) : Z :=
  match d with
  | DInt t => bits t / 8
  | DFloat float16 => 2
  | DFloat float32 => 4
  | DFloat float64 => 8
  | DOther bool_ => 1
  | DOther object_ => 8
  | DOther datetime64 => 8
  end.

(** [s.memory_usage(index=False)] *)
Definition nbytes (s : Series) : Z := itemsize (dtypes s) * Z.of_nat (len s).

(** A table: labelled columns in order, over the default positional index
    [0 .. index_len - 1] ([RangeIndex(index_len)]).  No other index is
    represented. *)
Record DataFrame := mkDataFrame {
  index_len : nat;
  columns : list (string * Series)
}.

(** [list(df)], [df.columns] *)
Definition labels (df : DataFrame) : list string := map fst (columns df).

(** [df[col]] for a single label.  With a repeated label pandas hands back
    a table instead of a column and the source's dtype test raises; [None]
    stands for that, and for a missing label. *)
Definition getitem (df : DataFrame) (col : string) : option Series :=
  match filter (fun c => String.eqb (fst c) col) (columns df) with
  | [c] => Some (snd c)
  | _ => None
  end.

(** [df[col] = s] for a label of the table: the column is replaced in
    place; a new label is appended. *)
Definition setitem (df : DataFrame) (col : string) (s : Series) : DataFrame :=
  if existsb (String.eqb col) (labels df) then
    mkDataFrame (index_len df)
      (map (fun c => if String.eqb (fst c) col then (fst c, s) else c) (columns df))
  else mkDataFrame (index_len df) (columns df ++ [(col, s)]).

(** [df.memory_usage().sum()], given the bytes of the index. *)
Definition memory_usage_sum (index_bytes : Z) (df : DataFrame) : Z :=
  fold_left Z.add (map (fun c => nbytes (snd c)) (columns df)) index_bytes.

(** ** Row-wise access, for the join *)

Inductive cell :=
| CInt (z : Z)
| CFloat (f : spec_float)
| CObj (o : option string).

(** [s.iloc[i]] *)
Definition iloc (s : Series) (i : nat) : option cell :=
  match s with
  | IntSeries _ v => option_map CInt (nth_error v i)
  | FloatSeries _ v => option_map CFloat (nth_error v i)
  | ObjSeries _ v => option_map CObj (nth_error v i)
  end.

(** Is row [i] of the column a missing-value placeholder? *)
Definition isna (s : Series) (i : nat) : bool :=
  match iloc s i with
  | Some (CFloat f) => isnan f
  | Some (CObj None) => true
  | _ => false
  end.

Definition float_key_eqb (a b : spec_float) : bool :=
  (isnan a && isnan b) || SFeqb a b.

(** Equality of two join-key cells: by value, with missing keys matching
    each other.  The join applies it to the cells of two key columns that
    passed the dtype check of [coerce_merge_key] below: columns of one
    dtype, two integer or float columns, which are compared as float64 when
    one of them is a float column, or the two columns handed back for a
    pair left to the parameter of the join.  Cells
    of different kinds other than these never meet where both tables have
    rows. *)
Definition key_eqb (a b : cell) : bool :=
  match a, b with
  | CInt x, CInt y => x =? y
  | CFloat x, CFloat y =>
      float_key_eqb (astype_float float64 x) (astype_float float64 y)
  | CInt x, CFloat y | CFloat y, CInt x =>
      float_key_eqb (float_of_Z float64 x) (astype_float float64 y)
  | CObj (Some x), CObj (Some y) => String.eqb x y
  | CObj None, CObj None => true
  | _, _ => false
  end.

Definition opt_key_eqb (a b : option cell) : bool :=
  match a, b with
  | Some x, Some y => key_eqb x y
  | _, _ => false
  end.

(** Row [i] of the key columns [ks] against row [j] of [ks']. *)
Fixpoint keys_match (ks ks' : list Series) (i j : nat) : bool :=
  match ks, ks' with
  | [], [] => true
  | k :: r, k' :: r' => opt_key_eqb (iloc k i) (iloc k' j) && keys_match r r' i j
  | _, _ => false
  end.

(** The rows of the right table that row [i] of the left table joins. *)
Definition matches (ks ks' : list Series) (nright : nat) (i : nat) : list nat :=
  filter (keys_match ks ks' i) (seq 0 nright).

(** Row pairs of a left join, in the order of the left table: every
    matching right row, or a single unmatched row. *)
Definition left_join_rows (ks ks' : list Series) (nleft nright : nat)
  : list (nat * option nat) :=
  flat_map (fun i =>
              match matches ks ks' nright i with
              | [] => [(i, None)]
              | js => map (fun j => (i, Some j)) js
              end) (seq 0 nleft).

(** [s.take(rows)] *)
Definition take (s : Series) (rows : list nat) : Series :=
  match s with
  | IntSeries t v => IntSeries t (map (fun i => nth i v 0) rows)
  | FloatSeries t v => FloatSeries t (map (fun i => nth i v nan) rows)
  | ObjSeries t v => ObjSeries t (map (fun i => nth i v None) rows)
  end.

Definition all_some {A} (l : list (option A)) : bool :=
  forallb (fun o => match o with Some _ => true | None => false end) l.

(** Gather rows where some have no source row.  When every row has one the
    dtype is kept.  Otherwise the holes are filled with the placeholder of
    the column: integers become float64 with NaN, booleans become objects,
    floats take NaN. *)
Definition take_missing (s : Series) (rows : list (option nat)) : Series :=
  if all_some rows then
    take s (map (fun o => match o with Some i => i | None => O end) rows)
  else
    match s with
    | IntSeries _ v =>
        FloatSeries float64
          (map (fun o => match o with
                         | Some i => float_of_Z float64 (nth i v 0)
                         | None => nan
                         end) rows)
    | FloatSeries t v =>
        FloatSeries t
          (map (fun o => match o with Some i => nth i v nan | None => nan end) rows)
    | ObjSeries t v =>
        ObjSeries (match t with bool_ => object_ | _ => t end)
          (map (fun o => match o with Some i => nth i v None | None => None end) rows)
    end.

(** [df[cols]] for a list of labels: for each label in turn, the columns
    carrying it; [None] (KeyError) when a label is absent. *)
Fixpoint select (cs : list (string * Series)) (cols : list string)
  : option (list (string * Series)) :=
  match cols with
  | [] => Some []
  | col :: rest =>
      match filter (fun c => String.eqb (fst c) col) cs, select cs rest with
      | (_ :: _) as found, Some more => Some (found ++ more)
      | _, _ => None
      end
  end.

Definition getitem_list (df : DataFrame) (cols : list string) : option DataFrame :=
  option_map (mkDataFrame (index_len df)) (select (columns df) cols).

Fixpoint getitems (df : DataFrame) (cols : list string) : option (list Series) :=
  match cols with
  | [] => Some []
  | col :: rest =>
      match getitem df col, getitems df rest with
      | Some s, Some more => Some (s :: more)
      | _, _ => None
      end
  end.

Fixpoint nodupb (l : list string) : bool :=
  match l with
  | [] => true
  | x :: r => negb (existsb (String.eqb x) r) && nodupb r
  end.

(** [str(a) == str(b)] on dtypes, which is equality of the dtypes here. *)
Definition dtype_eqb (a b : dtype) : bool := String.eqb (str a) (str b).

(** An integer or a float dtype. *)
Definition is_number (d : dtype) : bool :=
  match d with
  | DInt _ | DFloat _ => true
  | DOther _ => false
  end.

Definition is_datetime (d : dtype) : bool :=
  match d with
  | DOther datetime64 => true
  | _ => false
  end.

(** [df[col] = s] for the labels [cols] and the columns [ss], in turn. *)
Fixpoint setitems (df : DataFrame) (cols : list string) (ss : list Series) : DataFrame :=
  match cols, ss with
  | col :: rest, s :: more => setitems (setitem df col s) rest more
  | _, _ => df
  end.

Definition is_float16 (d : dtype) : bool :=
  match d with
  | DFloat float16 => true
  | _ => false
  end.

(** What [merge] does with the pairs of key columns whose treatment is not
    fixed by their dtypes: [None] when it raises, or the pair of columns it
    joins the rows on.
    - Key columns of different dtypes, one of them a bool or an object
      column and none a datetime column: [merge] raises [ValueError] or
      casts both columns to objects and joins on the casts.  Which of the
      two, and which objects the casts hold, depends on the Python objects
      in the columns, which are opaque here.
    - A float16 key column: pandas joins on it in the versions that hash
      float16 keys and raises [KeyError] in the others.
    The answer is a parameter of the join. *)
Definition key_rule : Type := Series -> Series -> option (Series * Series).

Section Merge.

Variable other_keys : key_rule.

(** A pair of key columns that passed the dtype check as it is: joined as
    it is, unless a float16 column is among the two. *)
Definition hash_keys (lk rk : Series) : option (Series * Series) :=
  if is_float16 (dtypes lk) || is_float16 (dtypes rk) then other_keys lk rk
  else Some (lk, rk).

(** The dtype check [merge] performs on a left and a right key column
    before it joins, with the pair of columns it joins on.
    - When exactly one of the two columns has no rows, nothing is checked.
    - Columns of the same dtype, and two integer or float columns, pass as
      they are.
    - A datetime column against a column of any other dtype raises
      [ValueError].
    - The remaining pairs are the ones of [other_keys]. *)
Definition coerce_merge_key (lk rk : Series) : option (Series * Series) :=
  if xorb (Nat.eqb (len lk) 0) (Nat.eqb (len rk) 0) then hash_keys lk rk
  else if dtype_eqb (dtypes lk) (dtypes rk) then hash_keys lk rk
  else if is_number (dtypes lk) && is_number (dtypes rk) then hash_keys lk rk
  else if is_datetime (dtypes lk) || is_datetime (dtypes rk) then None
  else other_keys lk rk.

(** The check for each key in turn; it raises as soon as one pair does. *)
Fixpoint coerce_merge_keys (ks ks' : list Series)
  : option (list Series * list Series) :=
  match ks, ks' with
  | lk :: r, rk :: r' =>
      match coerce_merge_key lk rk with
      | None => None
      | Some (a, b) =>
          match coerce_merge_keys r r' with
          | None => None
          | Some (x, y) => Some (a :: x, b :: y)
          end
      end
  | _, _ => Some ([], [])
  end.

(** [left.merge(right, on=on, how='left')] where no label other than the
    keys is shared by the two tables (in the source the left table holds
    the key columns only).  The key columns are looked up on both sides and
    checked; the columns the check hands back replace the key columns of
    the left table and are the ones the rows are joined on.  The result
    carries a fresh positional index, the columns of the left table and
    then the other columns of the right table.  [None]: no key, a repeated
    key, a key that does not name exactly one column on each side
    ([KeyError]), or a pair of key columns that is refused ([ValueError],
    or [KeyError] for float16 keys). *)
Definition merge_left (left right : DataFrame) (on : list string) : option DataFrame :=
  match on with
  | [] => None
  | _ =>
      if nodupb on then
        match getitems left on, getitems right on with
        | Some ks, Some ks' =>
            match coerce_merge_keys ks ks' with
            | None => None
            | Some (cks, cks') =>
                let left' := setitems left on cks in
                let rows := left_join_rows cks cks' (index_len left) (index_len right) in
                Some (mkDataFrame (List.length rows)
                        (map (fun c => (fst c, take (snd c) (map fst rows))) (columns left')
                         ++ map (fun c => (fst c, take_missing (snd c) (map snd rows)))
                              (filter (fun c => negb (existsb (String.eqb (fst c)) on))
                                      (columns right))))
            end
        | _, _ => None
        end
      else None
  end.

End Merge.

(** Rows [0 .. n-1] of a column over the positional index: rows the column
    does not have are missing. *)
Definition reindex (n : nat) (s : Series) : Series :=
  take_missing s (map (fun i => if Nat.ltb i (len s) then Some i else None) (seq 0 n)).

(** [pd.concat([a, b], axis=1)] of two tables on the default positional
    index: the columns side by side, aligned on the index.  Equal indexes,
    that is equal row counts: nothing moves.  Otherwise both tables are
    re-indexed on the union of the two indexes, which is the positional
    index of the longer table. *)
Definition concat_axis1 (a b : DataFrame) : DataFrame :=
  if Nat.eqb (index_len a) (index_len b) then
    mkDataFrame (index_len a) (columns a ++ columns b)
  else
    let n := Nat.max (index_len a) (index_len b) in
    mkDataFrame n
      (map (fun c => (fst c, reindex n (snd c))) (columns a)
       ++ map (fun c => (fst c, reindex n (snd c))) (columns b)).

End Pd.

(* ===================================================================== *)
(** * Python string formatting of floats *)
(* ===================================================================== *)

Module Fmt.
Import Np.

Definition string_of_nonneg (n : Z) : string :=
  NilZero.string_of_uint (N.to_uint (Z.to_N n)).

Fixpoint repeat_string (c : string) (n : nat) : string :=
  match n with
  | O => EmptyString
  | S k => String.append c (repeat_string c k)
  end.

(** [s.rjust(w, c)] *)
Definition rjust (w : nat) (c : string) (s : string) : string :=
  String.append (repeat_string c (w - String.length s)) s.

(** Nearest integer to [num / den], ties to even ([den > 0]). *)
Definition round_half_even (num den : Z) : Z :=
  let q := num / den in
  match (2 * (num mod den)) ?= den with
  | Lt => q
  | Gt => q + 1
  | Eq => if Z.even q then q else q + 1
  end.

(** The digits of [m * 2^e] in fixed notation with [d] decimals, correctly
    rounded. *)
Definition fixed_digits (d : nat) (m : Z) (e : Z) : string :=
  let p := 10 ^ Z.of_nat d in
  let n := if 0 <=? e then m * 2 ^ e * p
           else round_half_even (m * p) (2 ^ (- e)) in
  match d with
  | O => string_of_nonneg n
  | _ => String.append (string_of_nonneg (n / p))
           (String.append "." (rjust d "0" (string_of_nonneg (n mod p))))
  end.

Definition sign_string (s : bool) : string := if s then "-" else "".

(** ["%w.df" % x] and ["{:w.df}".format(x)] *)
Definition format_f (w d : nat) (x : spec_float) : string :=
  rjust w " "
    match x with
    | S754_nan => "nan"
    | S754_infinity s => String.append (sign_string s) "inf"
    | S754_zero s => String.append (sign_string s) (fixed_digits d 0 0)
    | S754_finite s m e => String.append (sign_string s) (fixed_digits d (Zpos m) e)
    end.

End Fmt.

(* ===================================================================== *)
(** * helper_func.py *)
(* ===================================================================== *)

Import Np Pd.

Definition f64 (z : Z) : spec_float := float_of_Z float64 z.
Definition fdiv : spec_float -> spec_float -> spec_float := SFdiv 53 1024.
Definition fmul : spec_float -> spec_float -> spec_float := SFmul 53 1024.
Definition fsub : spec_float -> spec_float -> spec_float := SFsub 53 1024.

(** ** size_of_fmt *)

(** The loop over the units, on the running value [num]: the first unit at
    which [abs(num) < 1024.0] formats the value; otherwise [num /= 1024.0]. *)
Fixpoint size_of_fmt_units (units : list string) (num : spec_float) (suffix : string)
  : string :=
  match units with
  | [] => String.append (Fmt.format_f 0 1 num) (String.append "Yi" suffix)
  | unit :: rest =>
      if SFltb (SFabs num) (f64 1024) then
        String.append (Fmt.format_f 3 1 num) (String.append unit suffix)
      else size_of_fmt_units rest (fdiv num (f64 1024)) suffix
  end.

Definition units : list string := [""; "Ki"; "Mi"; "Gi"; "Ti"; "Pi"; "Ei"; "Zi"].

(** [size_of_fmt(num, suffix)]; [None] when it raises.  A [float] argument
    runs the loop as it is.  For an [int] argument that converts to [float],
    the first comparison (exact in Python) agrees with the comparison of its
    float value, since the conversion is monotone and 1024 is a float; the
    format and the division convert it.  An [int] that does not convert is
    not below 1024, the first test fails and [num /= 1024.0] raises
    [OverflowError]. *)
Definition size_of_fmt (num : scalar) (suffix : string) : option string :=
  match py_float num with
  | None => None
  | Some x => Some (size_of_fmt_units units x suffix)
  end.

(** The default [suffix='B']. *)
Definition size_of_fmt_B (num : scalar) : option string := size_of_fmt num "B".

(** ** reduce_dtypes *)

Definition numerics : list string :=
  ["int16"; "int32"; "int64"; "float16"; "float32"; "float64"].

(** [x in l] on strings *)
Definition str_in (x : string) (l : list string) : bool := existsb (String.eqb x) l.

(** The body of [for col in df.columns], on the table as it stands. *)
Definition reduce_col (df : DataFrame) (col : string) : option DataFrame :=
  match getitem df col with
  | None => None
  | Some s =>
      let col_type := dtypes s in
      Some
        (if str_in (str col_type) numerics then
           let c_min := min s in
           let c_max := max s in
           if String.eqb (substring 0 3 (str col_type)) "int" then
             if gt c_min (PyInt (iinfo_min int8)) && lt c_max (PyInt (iinfo_max int8)) then
               setitem df col (astype s (DInt int8))
             else if gt c_min (PyInt (iinfo_min int16)) && lt c_max (PyInt (iinfo_max int16)) then
               setitem df col (astype s (DInt int16))
             else if gt c_min (PyInt (iinfo_min int32)) && lt c_max (PyInt (iinfo_max int32)) then
               setitem df col (astype s (DInt int32))
             else if gt c_min (PyInt (iinfo_min int64)) && lt c_max (PyInt (iinfo_max int64)) then
               setitem df col (astype s (DInt int64))
             else df
           else
             if gt c_min (PyFloat (finfo_min float16)) && lt c_max (PyFloat (finfo_max float16)) then
               setitem df col (astype s (DFloat float16))
             else if gt c_min (PyFloat (finfo_min float32)) && lt c_max (PyFloat (finfo_max float32)) then
               setitem df col (astype s (DFloat float32))
             else
               setitem df col (astype s (DFloat float64))
         else df)
  end.

(** The loop; the labels are read once, the table is updated as it goes. *)
Fixpoint reduce_cols (cols : list string) (df : DataFrame) : option DataFrame :=
  match cols with
  | [] => Some df
  | col :: rest =>
      match reduce_col df col with
      | None => None
      | Some df' => reduce_cols rest df'
      end
  end.

Section ReduceDtypes.

(** What [memory_usage] reports for the index of a table. *)
Variable index_bytes : Z.

(** [df.memory_usage().sum() / 1024**2] *)
Definition mem_mb (df : DataFrame) : spec_float :=
  fdiv (f64 (memory_usage_sum index_bytes df)) (f64 (1024 ^ 2)).

Definition report (start_mem end_mem : spec_float) : string :=
  String.append "Mem. usage decreased to "
    (String.append (Fmt.format_f 5 2 end_mem)
       (String.append " Mb ("
          (String.append
             (Fmt.format_f 0 1 (fdiv (fmul (f64 100) (fsub start_mem end_mem)) start_mem))
             "% reduction)"))).

(** [reduce_dtypes(df, verbose)]: the returned table and the lines printed.
    [None] when the column loop raises. *)
Definition reduce_dtypes (df : DataFrame) (verbose : bool)
  : option (DataFrame * list string) :=
  let start_mem := mem_mb df in
  match reduce_cols (labels df) df with
  | None => None
  | Some df' =>
      let end_mem := mem_mb df' in
      Some (df', if verbose then [report start_mem end_mem] else [])
  end.

End ReduceDtypes.

(** ** merge_by_concat *)

Section MergeByConcat.

(** What [merge] does with the key columns whose treatment is not fixed by
    their dtypes. *)
Variable other_keys : key_rule.

(** [merge_by_concat(df1, df2, merge_on)]; [None] when it raises. *)
Definition merge_by_concat (df1 df2 : DataFrame) (merge_on : list string)
  : option DataFrame :=
  match getitem_list df1 merge_on with
  | None => None
  | Some merged_gf0 =>
      match merge_left other_keys merged_gf0 df2 merge_on with
      | None => None
      | Some merged_gf =>
          let new_columns :=
            filter (fun col => negb (str_in col merge_on)) (labels merged_gf) in
          match getitem_list merged_gf new_columns with
          | None => None
          | Some new_part => Some (concat_axis1 df1 new_part)
          end
      end
  end.

End MergeByConcat.

(* ===================================================================== *)
(** * Derived definitions used in the statements *)
(* ===================================================================== *)

(** The column the loop body leaves behind for a column [s]: the argument of
    the assignment it performs, or [s] itself when it assigns nothing. *)
Definition narrowed (s : Series) : Series :=
  let col_type := dtypes s in
  if str_in (str col_type) numerics then
    let c_min := min s in
    let c_max := max s in
    if String.eqb (substring 0 3 (str col_type)) "int" then
      if gt c_min (PyInt (iinfo_min int8)) && lt c_max (PyInt (iinfo_max int8)) then
        astype s (DInt int8)
      else if gt c_min (PyInt (iinfo_min int16)) && lt c_max (PyInt (iinfo_max int16)) then
        astype s (DInt int16)
      else if gt c_min (PyInt (iinfo_min int32)) && lt c_max (PyInt (iinfo_max int32)) then
        astype s (DInt int32)
      else if gt c_min (PyInt (iinfo_min int64)) && lt c_max (PyInt (iinfo_max int64)) then
        astype s (DInt int64)
      else s
    else
      if gt c_min (PyFloat (finfo_min float16)) && lt c_max (PyFloat (finfo_max float16)) then
        astype s (DFloat float16)
      else if gt c_min (PyFloat (finfo_min float32)) && lt c_max (PyFloat (finfo_max float32)) then
        astype s (DFloat float32)
      else
        astype s (DFloat float64)
  else s.

Definition narrow_all (cs : list (string * Series)) : list (string * Series) :=
  map (fun c => (fst c, narrowed (snd c))) cs.

(** [min(column) > T.min and max(column) < T.max] for an integer type [T]. *)
Definition strictly_inside_int (t : int_dtype) (s : Series) : bool :=
  gt (min s) (PyInt (iinfo_min t)) && lt (max s) (PyInt (iinfo_max t)).

(** The same for a float type. *)
Definition strictly_inside_float (t : float_dtype) (s : Series) : bool :=
  gt (min s) (PyFloat (finfo_min t)) && lt (max s) (PyFloat (finfo_max t)).

(** The ordered candidate lists of the specification. *)
Definition int_candidates : list int_dtype := [int8; int16; int32; int64].
Definition float_candidates : list float_dtype := [float16; float32].

(** The narrowest float candidate that strictly contains the column, with the
    64-bit type as unconditional fallback. *)
Definition narrowest_float (s : Series) : float_dtype :=
  match find (fun t => strictly_inside_float t s) float_candidates with
  | Some t => t
  | None => float64
  end.

(** A column passes the gate of the loop: its dtype is listed in [numerics]. *)
Definition processed (s : Series) : bool := str_in (str (dtypes s)) numerics.

(** A column of a table with [n] rows: [n] cells, each a value of the
    declared type. *)
Definition wf_series (n : nat) (s : Series) : bool :=
  Nat.eqb (len s) n &&
  match s with
  | IntSeries t v => forallb (fun z => (iinfo_min t <=? z) && (z <=? iinfo_max t)) v
  | FloatSeries t v => forallb (valid t) v
  | ObjSeries _ _ => true
  end.

(** A table as pandas builds it: distinct labels, well-formed columns. *)
Definition wf_table (df : DataFrame) : bool :=
  nodupb (labels df) && forallb (fun c => wf_series (index_len df) (snd c)) (columns df).

(** A float column still selects its own declared type. *)
Definition float_settled (s : Series) : Prop :=
  match s with
  | FloatSeries t _ => narrowest_float s = t
  | _ => True
  end.

(** The running value after [k] divisions by 1024.0. *)
Definition scaled (num : spec_float) (k : nat) : spec_float :=
  Nat.iter k (fun x => fdiv x (f64 1024)) num.

(** [abs(num) < 1024.0] holds for the value scaled to the [k]-th unit. *)
Definition below_1024 (num : spec_float) (k : nat) : bool :=
  SFltb (SFabs (scaled num k)) (f64 1024).

(** The column lies strictly inside the range of its own declared type; a
    float64 column and a non-numeric column count as inside. *)
Definition inside_own_range (s : Series) : bool :=
  match s with
  | IntSeries t _ => strictly_inside_int t s
  | FloatSeries float64 _ => true
  | FloatSeries t _ => strictly_inside_float t s
  | ObjSeries _ _ => true
  end.

(** The next wider integer type. *)
Definition next_int (t : int_dtype) : int_dtype :=
  match t with
  | int8 => int16
  | int16 => int32
  | int32 => int64
  | int64 => int64
  end.

(** A float column without a number: every cell is NaN (or there is none). *)
Definition all_nan (v : list spec_float) : bool := forallb isnan v.

(** An int16 column that holds the int16 maximum. *)
Definition table_int16_max : DataFrame :=
  mkDataFrame 2 [("k", IntSeries int16 [5; 32767])].

(** A float16 column that holds an infinity. *)
Definition table_float16_inf : DataFrame :=
  mkDataFrame 2 [("y", FloatSeries float16 [float_of_Z float16 1; S754_infinity false])].

(** [mixed_table] with the columns in another order and one column less. *)
Definition mixed_table_reordered : DataFrame :=
  mkDataFrame 3
    [("c", ObjSeries object_ [None; Some "x"; Some "y"]);
     ("b", FloatSeries float64 [f64 1; f64 2049; f64 (-3)]);
     ("a", IntSeries int32 [1; 127; -128])].

(* ===================================================================== *)
(** * Concrete tables *)
(* ===================================================================== *)

(** An int8 column holding 127 and an int64 column holding the int64
    maximum. *)
Definition boundary_table : DataFrame :=
  mkDataFrame 1 [("a", IntSeries int8 [127]); ("b", IntSeries int64 [iinfo_max int64])].

(** A float64 column holding 2049.0, which float16 does not represent. *)
Definition table_2049 : DataFrame :=
  mkDataFrame 1 [("x", FloatSeries float64 [f64 2049])].

(** A table without rows, with a float32 and an int32 column. *)
Definition empty_table : DataFrame :=
  mkDataFrame 0 [("x", FloatSeries float32 []); ("n", IntSeries int32 [])].

(** A float64 column holding 65500.0: below the float16 maximum 65504, and
    rounded onto it by the cast to float16. *)
Definition table_65500 : DataFrame :=
  mkDataFrame 1 [("x", FloatSeries float64 [f64 65500])].

(** A mixed table. *)
Definition mixed_table : DataFrame :=
  mkDataFrame 3
    [("a", IntSeries int64 [1; 127; -128]);
     ("b", FloatSeries float64 [f64 1; f64 2049; f64 (-3)]);
     ("c", ObjSeries object_ [None; Some "x"; Some "y"]);
     ("d", IntSeries int8 [127; 0; 0]);
     ("e", FloatSeries float32 [float_of_Z float32 5; nan; float_of_Z float32 70000]) ].

(** The tables of the merge example of the specification, and a secondary
    table that repeats a key. *)
Definition primary : DataFrame :=
  mkDataFrame 1 [("id", IntSeries int64 [1]); ("a", IntSeries int64 [10])].
Definition secondary_match : DataFrame :=
  mkDataFrame 1 [("id", IntSeries int64 [1]); ("b", IntSeries int64 [20])].
Definition secondary_no_match : DataFrame :=
  mkDataFrame 1 [("id", IntSeries int64 [2]); ("b", IntSeries int64 [20])].
Definition secondary_repeated : DataFrame :=
  mkDataFrame 2 [("id", IntSeries int64 [1; 1]); ("b", IntSeries int64 [20; 30])].

(** A secondary table whose key is a datetime column. *)
Definition secondary_dated : DataFrame :=
  mkDataFrame 1
    [("id", ObjSeries datetime64 [Some "2020-01-01"]); ("b", IntSeries int64 [20])].

(** A value for the parameter of the join: every pair of key columns left
    to it is refused.  The keys of the tables above are int64 columns on
    both sides, or meet a datetime column, so that the parameter is not
    consulted on them and every value gives the same result. *)
Definition refuse_keys : key_rule := fun _ _ => None.

(** Another value: every pair of key columns left to it is joined as it
    is. *)
Definition accept_keys : key_rule := fun lk rk => Some (lk, rk).

(** A key has the same dtype in both tables, or an integer or float dtype in
    both, and is not a float16 column in either. *)
Definition joinable (lk rk : Series) : bool :=
  (dtype_eqb (dtypes lk) (dtypes rk) || (is_number (dtypes lk) && is_number (dtypes rk)))
  && negb (is_float16 (dtypes lk) || is_float16 (dtypes rk)).

Ltac distinct_labels := repeat constructor; simpl; intuition discriminate.

(* ===================================================================== *)
(** * The functions on small inputs *)
(* ===================================================================== *)

Example size_of_fmt_examples :
  size_of_fmt_B (PyInt 1280) = Some "1.2KiB" /\
  size_of_fmt_B (PyInt (-1536)) = Some "-1.5KiB" /\
  size_of_fmt_B (PyInt 123456789) = Some "117.7MiB" /\
  size_of_fmt (PyInt (1024 ^ 8)) "B" = Some "1.0YiB" /\
  size_of_fmt (PyFloat nan) "B" = Some "nanYiB" /\
  size_of_fmt (PyFloat (S754_infinity false)) "B" = Some "infYiB" /\
  py_float (PyInt (2 ^ 1024 - 2 ^ 970 - 1)) = Some (finfo_max float64) /\
  size_of_fmt (PyInt (2 ^ 1024 - 2 ^ 970)) "B" = None /\
  size_of_fmt (PyInt (10 ^ 400)) "B" = None.
Proof. vm_compute. repeat split; reflexivity. Qed.

Example reduce_dtypes_mixed_table :
  reduce_dtypes 128 mixed_table true =
  Some (mkDataFrame 3
          [("a", IntSeries int16 [1; 127; -128]);
           ("b", FloatSeries float16
                   [float_of_Z float16 1; float_of_Z float16 2048; float_of_Z float16 (-3)]);
           ("c", ObjSeries object_ [None; Some "x"; Some "y"]);
           ("d", IntSeries int8 [127; 0; 0]);
           ("e", FloatSeries float32 [float_of_Z float32 5; nan; float_of_Z float32 70000])],
        ["Mem. usage decreased to  0.00 Mb (16.7% reduction)"]).
Proof. vm_compute. reflexivity. Qed.

(** The two merges of the specification's example: a match, and no match. *)
Example merge_by_concat_examples :
  merge_by_concat refuse_keys primary secondary_match ["id"] =
    Some (mkDataFrame 1
            [("id", IntSeries int64 [1]); ("a", IntSeries int64 [10]);
             ("b", IntSeries int64 [20])]) /\
  merge_by_concat refuse_keys primary secondary_no_match ["id"] =
    Some (mkDataFrame 1
            [("id", IntSeries int64 [1]); ("a", IntSeries int64 [10]);
             ("b", FloatSeries float64 [nan])]) /\
  merge_by_concat refuse_keys primary secondary_dated ["id"] = None /\
  merge_by_concat accept_keys primary secondary_dated ["id"] = None.
Proof. vm_compute. repeat split; reflexivity. Qed.

(* ===================================================================== *)
(** * Rounding to a binary format *)
(* ===================================================================== *)

Section Rounding.

Variables prec emax : Z.
Hypothesis prec_pos : 0 < prec.

Lemma digits2_pos_size (p : positive) : digits2_pos p = Pos.size p.
Proof. induction p; simpl; congruence. Qed.

Lemma Zdigits2_log2 (m : Z) : 0 < m -> Zdigits2 m = Z.log2 m + 1.
Proof.
  destruct m as [|p|p]; try lia. intros _. simpl Zdigits2.
  destruct p; simpl Z.log2; simpl digits2_pos; rewrite ?digits2_pos_size; lia.
Qed.

Lemma Zdigits2_nonneg (m : Z) : 0 <= Zdigits2 m.
Proof. destruct m; simpl; lia. Qed.

Lemma shr_1_div2 (mrs : shr_record) :
  0 <= shr_m mrs -> shr_m (shr_1 mrs) = shr_m mrs / 2.
Proof.
  destruct mrs as [m r s]. simpl. intros H.
  destruct m as [|p|p]; try lia; [reflexivity|].
  destruct p; simpl shr_m.
  - rewrite Pos2Z.inj_xI. apply Z.div_unique with 1; lia.
  - rewrite Pos2Z.inj_xO. apply Z.div_unique with 0; lia.
  - reflexivity.
Qed.

Lemma iter_shr_1 (p : positive) (mrs : shr_record) :
  0 <= shr_m mrs ->
  shr_m (iter_pos shr_1 p mrs) = shr_m mrs / 2 ^ Zpos p.
Proof.
  revert mrs. induction p as [p IH|p IH|]; intros mrs H; simpl iter_pos.
  - assert (H1 : 0 <= shr_m (shr_1 mrs)).
    { rewrite shr_1_div2 by exact H. apply Z.div_pos; lia. }
    assert (H2 : 0 <= shr_m (iter_pos shr_1 p (shr_1 mrs))).
    { rewrite IH by exact H1. apply Z.div_pos; [lia|]. apply Z.pow_pos_nonneg; lia. }
    rewrite IH by exact H2. rewrite IH by exact H1. rewrite shr_1_div2 by exact H.
    assert (E : 2 ^ Zpos p~1 = 2 * (2 ^ Zpos p * 2 ^ Zpos p)).
    { rewrite <- Z.pow_add_r, <- Z.pow_succ_r by lia. f_equal. lia. }
    rewrite E, !Z.div_div by (try apply Z.pow_pos_nonneg; lia). reflexivity.
  - assert (H2 : 0 <= shr_m (iter_pos shr_1 p mrs)).
    { rewrite IH by exact H. apply Z.div_pos; [lia|]. apply Z.pow_pos_nonneg; lia. }
    rewrite IH by exact H2. rewrite IH by exact H.
    assert (E : 2 ^ Zpos p~0 = 2 ^ Zpos p * 2 ^ Zpos p).
    { rewrite <- Z.pow_add_r by lia. f_equal. lia. }
    rewrite E, !Z.div_div by (try apply Z.pow_pos_nonneg; lia). reflexivity.
  - rewrite shr_1_div2 by exact H. reflexivity.
Qed.

Lemma shr_spec (mrs : shr_record) (e n : Z) :
  0 <= shr_m mrs ->
  shr_m (fst (shr mrs e n)) = shr_m mrs / 2 ^ Z.max 0 n /\
  snd (shr mrs e n) = e + Z.max 0 n.
Proof.
  intros H. destruct n as [|p|p]; simpl.
  - rewrite Z.div_1_r. split; lia.
  - rewrite iter_shr_1 by exact H. split; reflexivity.
  - rewrite Z.div_1_r. split; lia.
Qed.

Lemma shr_m_of_loc (m : Z) (l : location) : shr_m (shr_record_of_loc m l) = m.
Proof. destruct l as [|[]]; reflexivity. Qed.

Lemma shr_fexp_spec (m e : Z) (l : location) :
  0 <= m ->
  let k := Z.max 0 (fexp prec emax (Zdigits2 m + e) - e) in
  shr_m (fst (shr_fexp prec emax m e l)) = m / 2 ^ k /\
  snd (shr_fexp prec emax m e l) = e + k.
Proof.
  intros H k. unfold shr_fexp.
  destruct (shr_spec (shr_record_of_loc m l) e (fexp prec emax (Zdigits2 m + e) - e))
    as [A B]; [rewrite shr_m_of_loc; exact H|].
  rewrite shr_m_of_loc in A. split; assumption.
Qed.

Lemma digits_shift (m k : Z) :
  0 < m -> 0 <= k -> 0 < m / 2 ^ k ->
  Zdigits2 (m / 2 ^ k) = Zdigits2 m - k.
Proof.
  intros Hm Hk Hq.
  rewrite !Zdigits2_log2 by assumption.
  rewrite <- Z.shiftr_div_pow2 in * by exact Hk.
  rewrite Z.log2_shiftr by exact Hm.
  assert (k <= Z.log2 m).
  { destruct (Z_le_gt_dec k (Z.log2 m)) as [L|G]; [exact L|].
    exfalso. rewrite Z.shiftr_eq_0 in Hq; lia. }
  lia.
Qed.

Lemma round_nearest_even_ge (m : Z) (l : location) :
  m <= round_nearest_even m l.
Proof.
  destruct l as [|[]]; simpl; try lia. destruct (Z.even m); lia.
Qed.

Lemma Zdigits2_mono (a b : Z) : 0 < a -> a <= b -> Zdigits2 a <= Zdigits2 b.
Proof.
  intros Ha Hab. rewrite !Zdigits2_log2 by lia.
  pose proof (Z.log2_le_mono a b Hab). lia.
Qed.

(** Rounding a mantissa whose exponent is not above the canonical one
    yields a value of the format. *)
Lemma binary_round_aux_valid (s : bool) (mx ex : Z) (lx : location) :
  0 < mx ->
  ex <= fexp prec emax (Zdigits2 mx + ex) ->
  valid_binary prec emax (binary_round_aux prec emax s mx ex lx) = true.
Proof.
  intros Hm Hex. unfold binary_round_aux.
  destruct (shr_fexp_spec mx ex lx) as [Q1 E1]; [lia|].
  destruct (shr_fexp prec emax mx ex lx) as [mrs1 e1]. simpl fst in *. simpl snd in *.
  set (F0 := fexp prec emax (Zdigits2 mx + ex)) in *.
  rewrite Z.max_r in Q1, E1 by lia.
  assert (He1 : e1 = F0) by lia. clear E1.
  set (q := shr_m mrs1) in *.
  set (m1 := round_nearest_even q (loc_of_shr_record mrs1)).
  assert (Hq0 : 0 <= q).
  { rewrite Q1. apply Z.div_pos; [lia|]. apply Z.pow_pos_nonneg; lia. }
  assert (Hm1 : q <= m1) by apply round_nearest_even_ge.
  destruct (shr_fexp_spec m1 e1 loc_Exact) as [Q2 E2]; [lia|].
  destruct (shr_fexp prec emax m1 e1 loc_Exact) as [mrs2 e2].
  simpl fst in *. simpl snd in *.
  destruct (shr_m mrs2) as [|m2|m2] eqn:Hm2; [reflexivity| |reflexivity].
  destruct (Z.leb e2 (emax - prec)) eqn:Hle; [|reflexivity].
  simpl. unfold bounded. rewrite Hle, andb_true_r.
  unfold canonical_mantissa. apply Z.eqb_eq.
  change (Zpos (digits2_pos m2)) with (Zdigits2 (Zpos m2)).
  assert (Hm1pos : 0 < m1).
  { destruct (Z_lt_le_dec 0 m1) as [L|G]; [exact L|]. exfalso.
    assert (m1 = 0) by lia. rewrite H in Q2. rewrite Z.div_0_l in Q2; [lia|].
    apply Z.pow_nonzero; lia. }
  set (k := Z.max 0 (fexp prec emax (Zdigits2 m1 + e1) - e1)) in *.
  assert (Hd : Zdigits2 (Zpos m2) = Zdigits2 m1 - k).
  { rewrite Q2. apply digits_shift; lia. }
  rewrite Hd, E2.
  replace (Zdigits2 m1 - k + (e1 + k)) with (Zdigits2 m1 + e1) by lia.
  destruct (Z_lt_le_dec e1 (fexp prec emax (Zdigits2 m1 + e1))) as [L|G].
  - unfold k. lia.
  - unfold k. rewrite Z.max_l by lia. rewrite Z.add_0_r.
    apply Z.le_antisymm; [exact G|].
    rewrite He1. unfold F0, fexp.
    destruct (Z_le_gt_dec (Zdigits2 mx + ex - prec) (emin prec emax)) as [Sub|Nor].
    + rewrite (Z.max_r _ _ Sub). apply Z.le_max_r.
    + rewrite Z.max_l by lia.
      assert (HF : F0 = Zdigits2 mx + ex - prec) by (unfold F0, fexp; lia).
      assert (Hqpos : 0 < q).
      { rewrite Q1. apply Z.div_str_pos. split; [apply Z.pow_pos_nonneg; lia|].
        rewrite Zdigits2_log2 in HF by exact Hm.
        apply Z.le_trans with (2 ^ Z.log2 mx).
        - apply Z.pow_le_mono_r; lia.
        - apply Z.log2_spec. exact Hm. }
      assert (Hdq : Zdigits2 q = prec).
      { rewrite Q1. rewrite digits_shift; lia. }
      pose proof (Zdigits2_mono q m1 Hqpos Hm1).
      etransitivity; [|apply Z.le_max_l]. lia.
Qed.

Lemma digits2_pos_iter_xO (m d : positive) :
  digits2_pos (Pos.iter xO m d) = (digits2_pos m + d)%positive.
Proof.
  induction d as [|d IH] using Pos.peano_ind.
  - simpl. lia.
  - rewrite Pos.iter_succ. simpl. rewrite IH. lia.
Qed.

Lemma shl_align_le (mx : positive) (ex : Z) :
  let F := fexp prec emax (Zpos (digits2_pos mx) + ex) in
  snd (shl_align mx ex F) <=
  fexp prec emax (Zpos (digits2_pos (fst (shl_align mx ex F))) + snd (shl_align mx ex F)).
Proof.
  intros F. unfold shl_align.
  destruct (F - ex) as [|d|d] eqn:Hd; simpl fst; simpl snd.
  - fold F. lia.
  - fold F. lia.
  - rewrite digits2_pos_iter_xO. rewrite Pos2Z.inj_add.
    replace (Zpos (digits2_pos mx) + Zpos d + F) with (Zpos (digits2_pos mx) + ex) by lia.
    fold F. lia.
Qed.

(** Rounding to the format lands in the format. *)
Lemma binary_round_valid (s : bool) (m : positive) (e : Z) :
  valid_binary prec emax (binary_round prec emax s m e) = true.
Proof.
  unfold binary_round.
  pose proof (shl_align_le m e) as H. cbv zeta in H.
  destruct (shl_align m e (fexp prec emax (Zpos (digits2_pos m) + e))) as [mz ez].
  simpl in H. apply binary_round_aux_valid; [lia | exact H].
Qed.

(** A value of the format is its own rounding. *)
Lemma binary_round_id (s : bool) (m : positive) (e : Z) :
  bounded prec emax m e = true ->
  binary_round prec emax s m e = S754_finite s m e.
Proof.
  unfold bounded, canonical_mantissa. intros H.
  apply andb_true_iff in H. destruct H as [Hc He]. apply Z.eqb_eq in Hc.
  unfold binary_round. rewrite Hc. unfold shl_align. rewrite Z.sub_diag.
  cbv iota beta.
  unfold binary_round_aux, shr_fexp.
  change (Zdigits2 (Zpos m)) with (Zpos (digits2_pos m)).
  rewrite Hc, Z.sub_diag.
  cbn [shr shr_record_of_loc shr_m loc_of_shr_record round_nearest_even Zdigits2].
  rewrite Hc, Z.sub_diag.
  cbn [shr shr_record_of_loc shr_m]. rewrite He. reflexivity.
Qed.

End Rounding.

(** A cell cast to a float type is a value of that type. *)
Lemma astype_float_valid (t : float_dtype) (f : spec_float) :
  valid t (astype_float t f) = true.
Proof.
  destruct f as [s|s| |s m e]; try reflexivity.
  apply binary_round_valid. destruct t; reflexivity.
Qed.

(** A cell that is a value of the type is not changed by the cast. *)
Lemma astype_float_id (t : float_dtype) (f : spec_float) :
  valid t f = true -> astype_float t f = f.
Proof.
  destruct f as [s|s| |s m e]; try reflexivity.
  intros H. apply binary_round_id. exact H.
Qed.

(** Casting twice to the same float type is casting once. *)
Lemma astype_float_idem (t : float_dtype) (f : spec_float) :
  astype_float t (astype_float t f) = astype_float t f.
Proof. apply astype_float_id, astype_float_valid. Qed.

(* ===================================================================== *)
(** * The column loop *)
(* ===================================================================== *)

Lemma filter_label_app (col : string) (a b : list (string * Series)) :
  filter (fun c => String.eqb (fst c) col) (a ++ b) =
  filter (fun c => String.eqb (fst c) col) a ++ filter (fun c => String.eqb (fst c) col) b.
Proof. apply filter_app. Qed.

Lemma filter_label_absent (col : string) (cs : list (string * Series)) :
  ~ In col (map fst cs) -> filter (fun c => String.eqb (fst c) col) cs = [].
Proof.
  induction cs as [|c cs IH]; simpl; intros H; [reflexivity|].
  destruct (String.eqb_spec (fst c) col) as [E|E].
  - exfalso. apply H. now left.
  - apply IH. intros K. apply H. now right.
Qed.

Lemma map_label_absent (col : string) (s : Series) (cs : list (string * Series)) :
  ~ In col (map fst cs) ->
  map (fun c => if String.eqb (fst c) col then (fst c, s) else c) cs = cs.
Proof.
  induction cs as [|c cs IH]; simpl; intros H; [reflexivity|].
  destruct (String.eqb_spec (fst c) col) as [E|E].
  - exfalso. apply H. now left.
  - f_equal. apply IH. intros K. apply H. now right.
Qed.

Lemma NoDup_app_cons_absent (col : string) (a b : list string) :
  NoDup (a ++ col :: b) -> ~ In col a /\ ~ In col b.
Proof.
  intros H. apply NoDup_remove_2 in H. split; intros K; apply H, in_or_app; auto.
Qed.

Lemma getitem_middle n (pre post : list (string * Series)) (c : string * Series) :
  NoDup (map fst (pre ++ c :: post)) ->
  getitem (mkDataFrame n (pre ++ c :: post)) (fst c) = Some (snd c).
Proof.
  intros H. rewrite map_app in H. simpl in H.
  destruct (NoDup_app_cons_absent _ _ _ H) as [Ha Hb].
  unfold getitem. simpl. rewrite filter_label_app. simpl.
  rewrite String.eqb_refl, (filter_label_absent _ _ Ha), (filter_label_absent _ _ Hb).
  reflexivity.
Qed.

Lemma setitem_middle n (pre post : list (string * Series)) (c : string * Series) (s : Series) :
  NoDup (map fst (pre ++ c :: post)) ->
  setitem (mkDataFrame n (pre ++ c :: post)) (fst c) s =
  mkDataFrame n (pre ++ (fst c, s) :: post).
Proof.
  intros H. rewrite map_app in H. simpl in H.
  destruct (NoDup_app_cons_absent _ _ _ H) as [Ha Hb].
  unfold setitem, labels. simpl.
  replace (existsb (String.eqb (fst c)) (map fst (pre ++ c :: post))) with true.
  - f_equal. rewrite map_app. simpl.
    rewrite String.eqb_refl, (map_label_absent _ _ _ Ha), (map_label_absent _ _ _ Hb).
    reflexivity.
  - symmetry. apply existsb_exists. exists (fst c). split.
    + rewrite map_app. apply in_or_app. right. now left.
    + apply String.eqb_refl.
Qed.

(** One turn of the loop replaces the column by its [narrowed] form. *)
Lemma reduce_col_middle n (pre post : list (string * Series)) (c : string * Series) :
  NoDup (map fst (pre ++ c :: post)) ->
  reduce_col (mkDataFrame n (pre ++ c :: post)) (fst c) =
  Some (mkDataFrame n (pre ++ (fst c, narrowed (snd c)) :: post)).
Proof.
  intros H. unfold reduce_col. rewrite (getitem_middle _ _ _ _ H).
  assert (Same : mkDataFrame n (pre ++ c :: post) =
                 mkDataFrame n (pre ++ (fst c, snd c) :: post))
    by (destruct c; reflexivity).
  unfold narrowed. f_equal.
  repeat match goal with
         | |- context [if ?b then _ else _] => destruct b
         end;
    first [ apply (setitem_middle _ _ _ _ _ H) | exact Same ].
Qed.

Lemma reduce_cols_inv n (post pre : list (string * Series)) :
  NoDup (map fst (pre ++ post)) ->
  reduce_cols (map fst post) (mkDataFrame n (pre ++ post)) =
  Some (mkDataFrame n (pre ++ narrow_all post)).
Proof.
  revert pre. induction post as [|c post IH]; intros pre H; simpl.
  - reflexivity.
  - rewrite (reduce_col_middle _ _ _ _ H).
    replace (pre ++ (fst c, narrowed (snd c)) :: post)
      with ((pre ++ [(fst c, narrowed (snd c))]) ++ post)
      by (rewrite <- app_assoc; reflexivity).
    rewrite IH.
    + rewrite <- app_assoc. reflexivity.
    + rewrite <- app_assoc. simpl.
      rewrite map_app in *. simpl in *. exact H.
Qed.

(** With pairwise distinct labels the loop narrows every column in place. *)
Lemma reduce_cols_all (df : DataFrame) :
  NoDup (labels df) ->
  reduce_cols (labels df) df = Some (mkDataFrame (index_len df) (narrow_all (columns df))).
Proof.
  intros H. destruct df as [n cs]. unfold labels in *. simpl in *.
  exact (reduce_cols_inv n cs [] H).
Qed.

Lemma reduce_dtypes_all (index_bytes : Z) (df : DataFrame) (verbose : bool) :
  NoDup (labels df) ->
  exists out,
    reduce_dtypes index_bytes df verbose =
    Some (mkDataFrame (index_len df) (narrow_all (columns df)), out).
Proof.
  intros H. unfold reduce_dtypes. rewrite (reduce_cols_all df H).
  eexists. reflexivity.
Qed.

Lemma getitem_label (df : DataFrame) (col : string) (s : Series) :
  getitem df col = Some s ->
  filter (fun c => String.eqb (fst c) col) (columns df) = [(col, s)].
Proof.
  unfold getitem. intros H.
  destruct (filter (fun c => String.eqb (fst c) col) (columns df))
    as [|c [|c' r]] eqn:E; try discriminate.
  injection H as <-.
  assert (Hin : In c (filter (fun c => String.eqb (fst c) col) (columns df)))
    by (rewrite E; now left).
  apply filter_In in Hin. destruct Hin as [_ Hl].
  apply String.eqb_eq in Hl. destruct c as [l s]. simpl in *. subst l. reflexivity.
Qed.

(** Conversely the loop raises as soon as two columns share a label. *)
Lemma count_label (cs : list (string * Series)) (col : string) :
  count_occ string_dec (map fst cs) col =
  List.length (filter (fun c => String.eqb (fst c) col) cs).
Proof.
  induction cs as [|c cs IH]; [reflexivity|]. simpl.
  destruct (string_dec (fst c) col) as [E|E], (String.eqb_spec (fst c) col) as [E'|E'];
    try contradiction; simpl; rewrite IH; reflexivity.
Qed.

Lemma reduce_col_labels (df df' : DataFrame) (col : string) :
  reduce_col df col = Some df' ->
  labels df' = labels df /\ count_occ string_dec (labels df) col = 1%nat.
Proof.
  unfold reduce_col. destruct (getitem df col) as [s|] eqn:Hs; [|discriminate].
  intros H. injection H as <-.
  pose proof (getitem_label df col s Hs) as Hf.
  assert (Hset : forall s', labels (setitem df col s') = labels df).
  { intros s'. unfold setitem.
    destruct (existsb (String.eqb col) (labels df)) eqn:E.
    - unfold labels. simpl. rewrite map_map. apply map_ext.
      intros c. destruct (String.eqb (fst c) col); reflexivity.
    - exfalso. assert (In (col, s) (columns df)).
      { apply (proj1 (filter_In (fun c => String.eqb (fst c) col) (col, s) (columns df))).
        rewrite Hf. now left. }
      assert (existsb (String.eqb col) (labels df) = true); [|congruence].
      apply existsb_exists. exists col. split; [|apply String.eqb_refl].
      unfold labels. change col with (fst (col, s)). apply in_map. assumption. }
  split.
  - repeat match goal with
           | |- context [if ?b then _ else _] => destruct b
           end; first [apply Hset | reflexivity].
  - unfold labels. rewrite count_label, Hf. reflexivity.
Qed.

Lemma reduce_cols_unique (cols : list string) :
  forall df df',
    reduce_cols cols df = Some df' ->
    forall col, In col cols -> count_occ string_dec (labels df) col = 1%nat.
Proof.
  induction cols as [|c cols IH]; intros df df' H col Hin; [contradiction|].
  simpl in H. destruct (reduce_col df c) as [df1|] eqn:H1; [|discriminate].
  destruct (reduce_col_labels _ _ _ H1) as [Hl Hc].
  destruct Hin as [<-|Hin]; [exact Hc|].
  rewrite <- Hl. apply (IH df1 df' H col Hin).
Qed.

(** X15.  [reduce_dtypes] returns exactly on the tables with pairwise
    distinct column labels: with a repeated label the column lookup of the
    loop yields a table, and the dtype test on it raises. *)
Lemma reduce_dtypes_returns (index_bytes : Z) (df : DataFrame) (verbose : bool) :
  reduce_dtypes index_bytes df verbose <> None <-> NoDup (labels df).
Proof.
  split.
  - intros H. apply (NoDup_count_occ' string_dec). intros col Hin.
    unfold reduce_dtypes in H.
    destruct (reduce_cols (labels df) df) as [df'|] eqn:E; [|congruence].
    apply (reduce_cols_unique _ _ _ E col Hin).
  - intros H. destruct (reduce_dtypes_all index_bytes df verbose H) as [out ->].
    discriminate.
Qed.

Lemma nth_error_narrow_all (cs : list (string * Series)) (i : nat) l s :
  nth_error cs i = Some (l, s) ->
  nth_error (narrow_all cs) i = Some (l, narrowed s).
Proof.
  intros H. unfold narrow_all. rewrite nth_error_map, H. reflexivity.
Qed.

(* ===================================================================== *)
(** * Integer columns *)
(* ===================================================================== *)

Lemma fold_min_le (xs : list Z) (x : Z) :
  fold_left Z.min xs x <= x /\ forall z, In z xs -> fold_left Z.min xs x <= z.
Proof.
  revert x. induction xs as [|y ys IH]; intros x; simpl.
  - split; [lia | tauto].
  - destruct (IH (Z.min x y)) as [A B]. split; [lia|].
    intros z [<-|Hz]; [lia | auto].
Qed.

Lemma fold_max_ge (xs : list Z) (x : Z) :
  x <= fold_left Z.max xs x /\ forall z, In z xs -> z <= fold_left Z.max xs x.
Proof.
  revert x. induction xs as [|y ys IH]; intros x; simpl.
  - split; [lia | tauto].
  - destruct (IH (Z.max x y)) as [A B]. split; [lia|].
    intros z [<-|Hz]; [lia | auto].
Qed.

Lemma fold_max_in (xs : list Z) (x : Z) : In (fold_left Z.max xs x) (x :: xs).
Proof.
  revert x. induction xs as [|y ys IH]; intros x; simpl.
  - now left.
  - destruct (IH (Z.max x y)) as [E|E].
    + rewrite <- E. destruct (Z.max_spec x y) as [[_ ->]|[_ ->]]; auto.
    + auto.
Qed.

Lemma fold_min_in (xs : list Z) (x : Z) : In (fold_left Z.min xs x) (x :: xs).
Proof.
  revert x. induction xs as [|y ys IH]; intros x; simpl.
  - now left.
  - destruct (IH (Z.min x y)) as [E|E].
    + rewrite <- E. destruct (Z.min_spec x y) as [[_ ->]|[_ ->]]; auto.
    + auto.
Qed.

Lemma bits_pos (t : int_dtype) : 0 < bits t.
Proof. destruct t; reflexivity. Qed.

(** A cast to an integer type that holds the value keeps the value. *)
Lemma astype_int_fits (t : int_dtype) (z : Z) :
  iinfo_min t <= z <= iinfo_max t -> astype_int t z = z.
Proof.
  unfold iinfo_min, iinfo_max, astype_int. intros H.
  pose proof (bits_pos t) as Hb.
  assert (E : 2 ^ bits t = 2 * 2 ^ (bits t - 1)).
  { rewrite <- Z.pow_succ_r by lia. f_equal. lia. }
  assert (P : 0 < 2 ^ (bits t - 1)) by (apply Z.pow_pos_nonneg; lia).
  rewrite Z.mod_small; lia.
Qed.

Lemma strictly_inside_int_cons (u t : int_dtype) (x : Z) (xs : list Z) :
  strictly_inside_int u (IntSeries t (x :: xs)) =
  (fold_left Z.min xs x >? iinfo_min u) && (fold_left Z.max xs x <? iinfo_max u).
Proof. reflexivity. Qed.

Lemma strictly_inside_int_empty (u t : int_dtype) :
  strictly_inside_int u (IntSeries t []) = false.
Proof. destruct u; reflexivity. Qed.

Lemma strictly_inside_int_dtype (u t t' : int_dtype) (v : list Z) :
  strictly_inside_int u (IntSeries t v) = strictly_inside_int u (IntSeries t' v).
Proof. destruct v; reflexivity. Qed.

(** When a column lies strictly inside an integer type, the cast to that type
    changes the dtype only. *)
Lemma astype_int_inside (u t : int_dtype) (v : list Z) :
  strictly_inside_int u (IntSeries t v) = true ->
  astype (IntSeries t v) (DInt u) = IntSeries u v.
Proof.
  intros H. simpl. f_equal.
  destruct v as [|x xs]; [reflexivity|].
  rewrite strictly_inside_int_cons in H.
  apply andb_true_iff in H. destruct H as [Hlo Hhi].
  apply Z.gtb_lt in Hlo. apply Z.ltb_lt in Hhi.
  destruct (fold_min_le xs x) as [L1 L2], (fold_max_ge xs x) as [U1 U2].
  rewrite <- (map_id (x :: xs)) at 2. apply map_ext_in.
  intros z Hz. apply astype_int_fits.
  destruct Hz as [<-|Hz]; [lia|].
  specialize (L2 z Hz). specialize (U2 z Hz). lia.
Qed.

(** The integer branch of the loop body, as a ladder over the candidates. *)
Lemma narrowed_int_ladder (t : int_dtype) (v : list Z) :
  t <> int8 ->
  narrowed (IntSeries t v) =
  if strictly_inside_int int8 (IntSeries t v) then astype (IntSeries t v) (DInt int8)
  else if strictly_inside_int int16 (IntSeries t v) then astype (IntSeries t v) (DInt int16)
  else if strictly_inside_int int32 (IntSeries t v) then astype (IntSeries t v) (DInt int32)
  else if strictly_inside_int int64 (IntSeries t v) then astype (IntSeries t v) (DInt int64)
  else IntSeries t v.
Proof. intros H. destruct t; [congruence | reflexivity ..]. Qed.

(** An int8 column does not pass the gate. *)
Lemma narrowed_int8 (v : list Z) : narrowed (IntSeries int8 v) = IntSeries int8 v.
Proof. reflexivity. Qed.

Lemma narrowed_obj (t : other_dtype) (v : list (option string)) :
  narrowed (ObjSeries t v) = ObjSeries t v.
Proof. destruct t; reflexivity. Qed.

Lemma narrower_cases (u t : int_dtype) :
  bits u < bits t ->
  match t with
  | int8 => False
  | int16 => u = int8
  | int32 => u = int8 \/ u = int16
  | int64 => u = int8 \/ u = int16 \/ u = int32
  end.
Proof. destruct u, t; simpl; intros H; try lia; auto. Qed.

(** What the loop does to an integer column that passes the gate: the values
    stay, and the dtype becomes the first candidate that strictly contains
    them, if there is one. *)
Lemma narrowed_int_spec (t : int_dtype) (v : list Z) :
  t <> int8 ->
  exists t',
    narrowed (IntSeries t v) = IntSeries t' v /\
    ((strictly_inside_int t' (IntSeries t' v) = true /\
      forall u, bits u < bits t' -> strictly_inside_int u (IntSeries t' v) = false)
     \/ (t' = t /\ forall u, strictly_inside_int u (IntSeries t v) = false)).
Proof.
  intros Ht. rewrite (narrowed_int_ladder t v Ht).
  destruct (strictly_inside_int int8 (IntSeries t v)) eqn:E8;
    [|destruct (strictly_inside_int int16 (IntSeries t v)) eqn:E16;
      [|destruct (strictly_inside_int int32 (IntSeries t v)) eqn:E32;
        [|destruct (strictly_inside_int int64 (IntSeries t v)) eqn:E64]]].
  - exists int8. rewrite (astype_int_inside _ _ _ E8). split; [reflexivity|]. left.
    rewrite (strictly_inside_int_dtype int8 int8 t). split; [exact E8|].
    intros u Hu. apply narrower_cases in Hu. contradiction.
  - exists int16. rewrite (astype_int_inside _ _ _ E16). split; [reflexivity|]. left.
    rewrite (strictly_inside_int_dtype int16 int16 t). split; [exact E16|].
    intros u Hu. apply narrower_cases in Hu. subst u.
    now rewrite (strictly_inside_int_dtype int8 int16 t).
  - exists int32. rewrite (astype_int_inside _ _ _ E32). split; [reflexivity|]. left.
    rewrite (strictly_inside_int_dtype int32 int32 t). split; [exact E32|].
    intros u Hu. apply narrower_cases in Hu.
    destruct Hu as [->| ->]; now rewrite (strictly_inside_int_dtype _ int32 t).
  - exists int64. rewrite (astype_int_inside _ _ _ E64). split; [reflexivity|]. left.
    rewrite (strictly_inside_int_dtype int64 int64 t). split; [exact E64|].
    intros u Hu. apply narrower_cases in Hu.
    destruct Hu as [->|[->| ->]]; now rewrite (strictly_inside_int_dtype _ int64 t).
  - exists t. split; [reflexivity|]. right. split; [reflexivity|].
    intros u. destruct u; assumption.
Qed.

Lemma int_dtype_eq_dec_aux (t : int_dtype) : t = int8 \/ t <> int8.
Proof. destruct t; [now left | right; discriminate ..]. Qed.

(** In every case an integer column keeps its cells. *)
Lemma narrowed_int_values (t : int_dtype) (v : list Z) :
  exists t', narrowed (IntSeries t v) = IntSeries t' v.
Proof.
  destruct (int_dtype_eq_dec_aux t) as [->|Ht].
  - exists int8. apply narrowed_int8.
  - destruct (narrowed_int_spec t v Ht) as [t' [E _]]. eauto.
Qed.

Lemma processed_int (t : int_dtype) (v : list Z) :
  processed (IntSeries t v) = true -> t <> int8.
Proof. intros H ->. discriminate H. Qed.

(** C1 (as amended).  For a table with distinct labels, take an integer
    column that passes the gate (declared int16, int32 or int64) and whose
    minimum and maximum lie strictly between the int64 bounds; such a column
    is not empty.  After [reduce_dtypes] the column holds the same cells, its
    declared type [T] satisfies [min > T.min] and [max < T.max], and no
    narrower type of the candidate list int8, int16, int32, int64 does. *)
Theorem reduce_dtypes_int_minimal
  (index_bytes : Z) (df : DataFrame) (verbose : bool)
  (i : nat) (l : string) (t : int_dtype) (v : list Z) :
  NoDup (labels df) ->
  nth_error (columns df) i = Some (l, IntSeries t v) ->
  processed (IntSeries t v) = true ->
  strictly_inside_int int64 (IntSeries t v) = true ->
  exists df' out t',
    reduce_dtypes index_bytes df verbose = Some (df', out) /\
    nth_error (columns df') i = Some (l, IntSeries t' v) /\
    strictly_inside_int t' (IntSeries t' v) = true /\
    forall u, In u int_candidates -> bits u < bits t' ->
              strictly_inside_int u (IntSeries t' v) = false.
Proof.
  intros Hnd Hcol Hproc Hin.
  destruct (reduce_dtypes_all index_bytes df verbose Hnd) as [out Hred].
  destruct (narrowed_int_spec t v (processed_int t v Hproc)) as [t' [E Hcase]].
  exists (mkDataFrame (index_len df) (narrow_all (columns df))), out, t'.
  split; [exact Hred|]. split.
  - simpl. rewrite (nth_error_narrow_all _ _ _ _ Hcol), E. reflexivity.
  - destruct Hcase as [[A B]|[-> B]].
    + split; [exact A | intros u _; apply B].
    + rewrite B in Hin. discriminate.
Qed.

(** C4.  An integer column that is processed (its declared type passes the
    gate), contains 127 and otherwise fits int8 comes out as int16. *)
Theorem reduce_dtypes_int8_max_promoted
  (index_bytes : Z) (df : DataFrame) (verbose : bool)
  (i : nat) (l : string) (t : int_dtype) (v : list Z) :
  NoDup (labels df) ->
  nth_error (columns df) i = Some (l, IntSeries t v) ->
  processed (IntSeries t v) = true ->
  In (iinfo_max int8) v ->
  (forall z, In z v -> iinfo_min int8 <= z <= iinfo_max int8) ->
  exists df' out,
    reduce_dtypes index_bytes df verbose = Some (df', out) /\
    nth_error (columns df') i = Some (l, IntSeries int16 v).
Proof.
  intros Hnd Hcol Hproc Hmax Hfit.
  destruct (reduce_dtypes_all index_bytes df verbose Hnd) as [out Hred].
  exists (mkDataFrame (index_len df) (narrow_all (columns df))), out.
  split; [exact Hred|]. simpl.
  rewrite (nth_error_narrow_all _ _ _ _ Hcol). do 2 f_equal.
  rewrite (narrowed_int_ladder t v (processed_int t v Hproc)).
  destruct v as [|x xs]; [contradiction|].
  destruct (fold_min_le xs x) as [L1 L2], (fold_max_ge xs x) as [U1 U2].
  pose proof (Hfit _ (fold_min_in xs x)) as Hlo.
  pose proof (Hfit _ (fold_max_in xs x)) as Hhi.
  assert (Hge : iinfo_max int8 <= fold_left Z.max xs x).
  { destruct Hmax as [<-|Hm]; [exact U1 | exact (U2 _ Hm)]. }
  change (iinfo_max int8) with 127 in *. change (iinfo_min int8) with (-128) in *.
  assert (E8 : strictly_inside_int int8 (IntSeries t (x :: xs)) = false).
  { rewrite strictly_inside_int_cons. apply andb_false_iff. right.
    apply Z.ltb_ge. change (iinfo_max int8) with 127. lia. }
  assert (E16 : strictly_inside_int int16 (IntSeries t (x :: xs)) = true).
  { rewrite strictly_inside_int_cons. apply andb_true_iff. split.
    - apply Z.gtb_lt. change (iinfo_min int16) with (-32768). lia.
    - apply Z.ltb_lt. change (iinfo_max int16) with 32767. lia. }
  rewrite E8, E16. apply (astype_int_inside _ _ _ E16).
Qed.

(** C10.  [numerics] lists int16, int32, int64, float16, float32 and float64
    and not int8; a column declared int8 therefore fails the gate and is
    left as it is, at its place. *)
Theorem reduce_dtypes_int8_skipped
  (index_bytes : Z) (df : DataFrame) (verbose : bool)
  (i : nat) (l : string) (v : list Z) :
  NoDup (labels df) ->
  nth_error (columns df) i = Some (l, IntSeries int8 v) ->
  numerics = ["int16"; "int32"; "int64"; "float16"; "float32"; "float64"] /\
  processed (IntSeries int8 v) = false /\
  exists df' out,
    reduce_dtypes index_bytes df verbose = Some (df', out) /\
    nth_error (columns df') i = Some (l, IntSeries int8 v).
Proof.
  intros Hnd Hcol. split; [reflexivity|]. split; [reflexivity|].
  destruct (reduce_dtypes_all index_bytes df verbose Hnd) as [out Hred].
  exists (mkDataFrame (index_len df) (narrow_all (columns df))), out.
  split; [exact Hred|]. simpl.
  rewrite (nth_error_narrow_all _ _ _ _ Hcol), narrowed_int8. reflexivity.
Qed.

(** C9.  The table returned with [verbose=True] is the table returned with
    [verbose=False] (and the call raises in the one case exactly when it
    raises in the other); without [verbose] nothing is printed. *)
Theorem reduce_dtypes_verbose_same_table (index_bytes : Z) (df : DataFrame) :
  option_map fst (reduce_dtypes index_bytes df true) =
  option_map fst (reduce_dtypes index_bytes df false) /\
  option_map snd (reduce_dtypes index_bytes df false) =
  option_map (fun _ => []) (reduce_dtypes index_bytes df true).
Proof.
  unfold reduce_dtypes. destruct (reduce_cols (labels df) df); split; reflexivity.
Qed.

(* ===================================================================== *)
(** * Float columns *)
(* ===================================================================== *)

(** The float branch of the loop body assigns in every case: the first of
    float16, float32 that strictly contains the column, else float64. *)
Lemma narrowed_float_ladder (t : float_dtype) (v : list spec_float) :
  narrowed (FloatSeries t v) =
  if strictly_inside_float float16 (FloatSeries t v)
  then FloatSeries float16 (map (astype_float float16) v)
  else if strictly_inside_float float32 (FloatSeries t v)
       then FloatSeries float32 (map (astype_float float32) v)
       else FloatSeries float64 (map (astype_float float64) v).
Proof. destruct t; reflexivity. Qed.

Lemma narrowed_float (t : float_dtype) (v : list spec_float) :
  narrowed (FloatSeries t v) =
  FloatSeries (narrowest_float (FloatSeries t v))
    (map (astype_float (narrowest_float (FloatSeries t v))) v).
Proof.
  rewrite narrowed_float_ladder. unfold narrowest_float, float_candidates, find.
  destruct (strictly_inside_float float16 (FloatSeries t v)); [reflexivity|].
  destruct (strictly_inside_float float32 (FloatSeries t v)); reflexivity.
Qed.

Lemma strictly_inside_float_empty (u t : float_dtype) :
  strictly_inside_float u (FloatSeries t []) = false.
Proof. destruct u; reflexivity. Qed.

(** C5.  For a float column of a table with distinct labels (empty or not),
    [reduce_dtypes] casts the column to the narrowest of float16, float32
    whose range strictly contains the column's minimum and maximum, and to
    float64 when neither does. *)
Theorem reduce_dtypes_float_narrowest
  (index_bytes : Z) (df : DataFrame) (verbose : bool)
  (i : nat) (l : string) (t : float_dtype) (v : list spec_float) :
  NoDup (labels df) ->
  nth_error (columns df) i = Some (l, FloatSeries t v) ->
  exists df' out t',
    reduce_dtypes index_bytes df verbose = Some (df', out) /\
    nth_error (columns df') i = Some (l, FloatSeries t' (map (astype_float t') v)) /\
    t' = narrowest_float (FloatSeries t v) /\
    (strictly_inside_float float16 (FloatSeries t v) = true -> t' = float16) /\
    (strictly_inside_float float16 (FloatSeries t v) = false ->
     strictly_inside_float float32 (FloatSeries t v) = true -> t' = float32) /\
    (strictly_inside_float float16 (FloatSeries t v) = false ->
     strictly_inside_float float32 (FloatSeries t v) = false -> t' = float64).
Proof.
  intros Hnd Hcol.
  destruct (reduce_dtypes_all index_bytes df verbose Hnd) as [out Hred].
  exists (mkDataFrame (index_len df) (narrow_all (columns df))), out,
    (narrowest_float (FloatSeries t v)).
  split; [exact Hred|]. split.
  - simpl. rewrite (nth_error_narrow_all _ _ _ _ Hcol), narrowed_float. reflexivity.
  - split; [reflexivity|].
    unfold narrowest_float, float_candidates, find.
    repeat split; intros; repeat match goal with H : _ = _ |- _ => rewrite H end;
      reflexivity.
Qed.

(* ===================================================================== *)
(** * Empty columns and the frame of the loop *)
(* ===================================================================== *)

Lemma narrowed_empty (s : Series) :
  len s = O ->
  narrowed s = match s with
               | FloatSeries _ _ => FloatSeries float64 []
               | _ => s
               end.
Proof.
  destruct s as [t v|t v|t v]; simpl; intros H;
    apply length_zero_iff_nil in H; subst v.
  - destruct t; reflexivity.
  - destruct t; reflexivity.
  - apply narrowed_obj.
Qed.

(** C3 (as amended).  An empty column keeps its (empty) contents.  Its
    declared type is kept when it is integer-kinded or not numeric; an empty
    float column comes out as float64, whatever float type it had. *)
Theorem reduce_dtypes_empty_column
  (index_bytes : Z) (df : DataFrame) (verbose : bool)
  (i : nat) (l : string) (s : Series) :
  NoDup (labels df) ->
  nth_error (columns df) i = Some (l, s) ->
  len s = O ->
  exists df' out s',
    reduce_dtypes index_bytes df verbose = Some (df', out) /\
    nth_error (columns df') i = Some (l, s') /\
    len s' = O /\
    match s with
    | FloatSeries _ _ => dtypes s' = DFloat float64
    | _ => s' = s
    end.
Proof.
  intros Hnd Hcol Hlen.
  destruct (reduce_dtypes_all index_bytes df verbose Hnd) as [out Hred].
  exists (mkDataFrame (index_len df) (narrow_all (columns df))), out, (narrowed s).
  split; [exact Hred|]. split.
  - simpl. apply (nth_error_narrow_all _ _ _ _ Hcol).
  - rewrite (narrowed_empty s Hlen). destruct s; auto.
Qed.

(** C2 (as amended).  [reduce_dtypes] keeps the row count, the labels and
    the order of the columns.  A column that does not pass the gate
    (non-numeric, or int8) is returned as it is.  An integer column keeps
    every cell and changes at most its declared type.  A float column keeps
    its length and row order and each cell is cast (rounded to nearest) to
    the new declared type; when all its cells are values of that type
    already, they are kept. *)
Theorem reduce_dtypes_frame
  (index_bytes : Z) (df : DataFrame) (verbose : bool) :
  NoDup (labels df) ->
  exists df' out,
    reduce_dtypes index_bytes df verbose = Some (df', out) /\
    index_len df' = index_len df /\
    labels df' = labels df /\
    forall i l s,
      nth_error (columns df) i = Some (l, s) ->
      exists s',
        nth_error (columns df') i = Some (l, s') /\
        len s' = len s /\
        (processed s = false -> s' = s) /\
        match s with
        | ObjSeries _ _ => s' = s
        | IntSeries _ v => exists t', s' = IntSeries t' v
        | FloatSeries _ v =>
            exists t', s' = FloatSeries t' (map (astype_float t') v) /\
                       ((forall f, In f v -> valid t' f = true) -> s' = FloatSeries t' v)
        end.
Proof.
  intros Hnd.
  destruct (reduce_dtypes_all index_bytes df verbose Hnd) as [out Hred].
  exists (mkDataFrame (index_len df) (narrow_all (columns df))), out.
  split; [exact Hred|]. split; [reflexivity|]. split.
  - unfold labels, narrow_all. simpl. rewrite map_map. reflexivity.
  - intros i l s Hcol. exists (narrowed s). split.
    + simpl. apply (nth_error_narrow_all _ _ _ _ Hcol).
    + assert (Hshape :
        match s with
        | ObjSeries _ _ => narrowed s = s
        | IntSeries _ v => exists t', narrowed s = IntSeries t' v
        | FloatSeries _ v =>
            exists t', narrowed s = FloatSeries t' (map (astype_float t') v) /\
                       ((forall f, In f v -> valid t' f = true) ->
                        narrowed s = FloatSeries t' v)
        end).
      { destruct s as [t v|t v|t v].
        - apply narrowed_int_values.
        - eexists. split; [apply narrowed_float|].
          intros Hv. rewrite narrowed_float. f_equal.
          transitivity (map (fun f : spec_float => f) v); [|apply map_id].
          apply map_ext_in. intros f Hf. apply astype_float_id, Hv, Hf.
        - apply narrowed_obj. }
      split; [|split; [|exact Hshape]].
      * destruct s as [t v|t v|t v].
        -- destruct Hshape as [t' ->]. reflexivity.
        -- destruct Hshape as [t' [-> _]]. simpl. apply length_map.
        -- rewrite Hshape. reflexivity.
      * intros Hp. unfold narrowed. fold (processed s). rewrite Hp. reflexivity.
Qed.

(* ===================================================================== *)
(** * Applying the loop twice *)
(* ===================================================================== *)

Lemma int_dtype_bits_inj (a b : int_dtype) : bits a = bits b -> a = b.
Proof. destruct a, b; simpl; intros H; try reflexivity; discriminate H. Qed.

Lemma narrowed_int_idem (t : int_dtype) (v : list Z) :
  narrowed (narrowed (IntSeries t v)) = narrowed (IntSeries t v).
Proof.
  destruct (int_dtype_eq_dec_aux t) as [->|Ht]; [reflexivity|].
  destruct (narrowed_int_spec t v Ht) as [t1 [E1 [[A1 B1]|[-> _]]]].
  - rewrite E1. destruct (int_dtype_eq_dec_aux t1) as [->|Ht1]; [reflexivity|].
    destruct (narrowed_int_spec t1 v Ht1) as [t2 [E2 [[A2 B2]|[_ C2]]]].
    + rewrite E2. f_equal. apply int_dtype_bits_inj.
      destruct (Z.lt_trichotomy (bits t2) (bits t1)) as [L|[E|G]]; [|exact E|].
      * rewrite (strictly_inside_int_dtype t2 t2 t1), (B1 t2 L) in A2. discriminate.
      * rewrite (strictly_inside_int_dtype t1 t1 t2), (B2 t1 G) in A1. discriminate.
    + rewrite C2 in A1. discriminate.
  - rewrite E1. exact E1.
Qed.

Lemma narrowed_float_idem (t : float_dtype) (v : list spec_float) :
  float_settled (narrowed (FloatSeries t v)) ->
  narrowed (narrowed (FloatSeries t v)) = narrowed (FloatSeries t v).
Proof.
  rewrite (narrowed_float t v).
  set (t1 := narrowest_float (FloatSeries t v)).
  intros H. simpl in H.
  rewrite narrowed_float, H, map_map.
  f_equal. apply map_ext. intros f. apply astype_float_idem.
Qed.

(** A column that came out of the loop body is left as it is by the loop
    body, unless it is a float column that now selects another type. *)
Lemma narrowed_idem (s : Series) :
  float_settled (narrowed s) -> narrowed (narrowed s) = narrowed s.
Proof.
  destruct s as [t v|t v|t v]; intros H.
  - apply narrowed_int_idem.
  - apply narrowed_float_idem, H.
  - rewrite !narrowed_obj. reflexivity.
Qed.

Lemma narrowed_not_float_settled (s : Series) :
  (forall t v, s <> FloatSeries t v) -> float_settled (narrowed s).
Proof.
  destruct s as [t v|t v|t v]; intros H.
  - destruct (narrowed_int_values t v) as [t' ->]. exact I.
  - exfalso. apply (H t v). reflexivity.
  - rewrite narrowed_obj. exact I.
Qed.

Lemma labels_narrow_all (cs : list (string * Series)) :
  map fst (narrow_all cs) = map fst cs.
Proof. unfold narrow_all. rewrite map_map. reflexivity. Qed.

(** C6 (as amended).  On a table with distinct labels a second application
    of [reduce_dtypes] returns.  It leaves every integer and every
    non-numeric column of the once-reduced table identical, and every float
    column whose declared type is still the type the loop selects from its
    (rounded) cells.  When all float columns of the once-reduced table are
    in that state, the second application returns that very table. *)
Theorem reduce_dtypes_twice
  (index_bytes : Z) (df : DataFrame) (verbose verbose' : bool) :
  NoDup (labels df) ->
  exists df1 out1 df2 out2,
    reduce_dtypes index_bytes df verbose = Some (df1, out1) /\
    reduce_dtypes index_bytes df1 verbose' = Some (df2, out2) /\
    (forall i l s,
        nth_error (columns df1) i = Some (l, s) ->
        (forall t v, s <> FloatSeries t v) ->
        nth_error (columns df2) i = Some (l, s)) /\
    (forall i l t v,
        nth_error (columns df1) i = Some (l, FloatSeries t v) ->
        narrowest_float (FloatSeries t v) = t ->
        nth_error (columns df2) i = Some (l, FloatSeries t v)) /\
    ((forall l t v, In (l, FloatSeries t v) (columns df1) ->
                    narrowest_float (FloatSeries t v) = t) ->
     df2 = df1).
Proof.
  intros Hnd.
  destruct (reduce_dtypes_all index_bytes df verbose Hnd) as [out1 H1].
  set (df1 := mkDataFrame (index_len df) (narrow_all (columns df))) in *.
  assert (Hnd1 : NoDup (labels df1)).
  { unfold labels, df1. simpl. rewrite labels_narrow_all. exact Hnd. }
  destruct (reduce_dtypes_all index_bytes df1 verbose' Hnd1) as [out2 H2].
  exists df1, out1, (mkDataFrame (index_len df1) (narrow_all (columns df1))), out2.
  split; [exact H1|]. split; [exact H2|].
  assert (Hfrom : forall i l s, nth_error (columns df1) i = Some (l, s) ->
                                exists s0, s = narrowed s0).
  { intros i l s H. unfold df1, narrow_all in H. simpl in H.
    rewrite nth_error_map in H.
    destruct (nth_error (columns df) i) as [[l0 s0]|]; [|discriminate].
    simpl in H. injection H as _ <-. eauto. }
  assert (Hfix : forall i l s, nth_error (columns df1) i = Some (l, s) ->
                               float_settled s -> narrowed s = s).
  { intros i l s H Hs. destruct (Hfrom i l s H) as [s0 ->].
    apply narrowed_idem, Hs. }
  split; [|split].
  - intros i l s H Hnf. cbn [columns].
    rewrite (nth_error_narrow_all _ _ _ _ H), (Hfix i l s H); [reflexivity|].
    destruct s as [t v|t v|t v]; [exact I | | exact I].
    exfalso. apply (Hnf t v). reflexivity.
  - intros i l t v H Hs. cbn [columns].
    rewrite (nth_error_narrow_all _ _ _ _ H), (Hfix i l _ H Hs). reflexivity.
  - intros Hall. destruct df1 as [n1 cs1] eqn:Edf1. cbn [columns index_len] in *.
    f_equal. unfold narrow_all. rewrite <- (map_id cs1) at 2.
    apply map_ext_in. intros [l s] Hin. simpl.
    destruct (In_nth_error _ _ Hin) as [i Hi].
    rewrite (Hfix i l s Hi); [reflexivity|].
    destruct s as [t v|t v|t v]; [exact I | | exact I].
    apply (Hall l t v Hin).
Qed.

(* ===================================================================== *)
(** * Well-formed tables stay well-formed *)
(* ===================================================================== *)

Lemma NoDup_nodupb (l : list string) : nodupb l = true -> NoDup l.
Proof.
  induction l as [|x r IH]; simpl; intros H; [constructor|].
  apply andb_true_iff in H. destruct H as [Hx Hr]. constructor; [|auto].
  intros Hin. apply negb_true_iff in Hx.
  assert (existsb (String.eqb x) r = true); [|congruence].
  apply existsb_exists. exists x. split; [exact Hin | apply String.eqb_refl].
Qed.

Lemma strictly_inside_int_range (t u : int_dtype) (v : list Z) :
  strictly_inside_int u (IntSeries t v) = true ->
  forallb (fun z => (iinfo_min u <=? z) && (z <=? iinfo_max u)) v = true.
Proof.
  intros H. destruct v as [|x xs]; [reflexivity|].
  rewrite strictly_inside_int_cons in H.
  apply andb_true_iff in H. destruct H as [Hlo Hhi].
  apply Z.gtb_lt in Hlo. apply Z.ltb_lt in Hhi.
  destruct (fold_min_le xs x) as [L1 L2], (fold_max_ge xs x) as [U1 U2].
  apply forallb_forall. intros z Hz. apply andb_true_iff.
  split; [apply Z.leb_le | apply Z.leb_le];
    (destruct Hz as [<-|Hz]; [lia | specialize (L2 z Hz); specialize (U2 z Hz); lia]).
Qed.

Lemma wf_series_narrowed (n : nat) (s : Series) :
  wf_series n s = true -> wf_series n (narrowed s) = true.
Proof.
  unfold wf_series. intros H. apply andb_true_iff in H. destruct H as [Hlen Hv].
  destruct s as [t v|t v|t v].
  - destruct (int_dtype_eq_dec_aux t) as [->|Ht].
    + rewrite narrowed_int8. simpl in *. rewrite Hlen, Hv. reflexivity.
    + destruct (narrowed_int_spec t v Ht) as [t' [-> [[A _]|[-> _]]]].
      * simpl in *. rewrite Hlen. apply (strictly_inside_int_range _ _ _ A).
      * simpl in *. rewrite Hlen, Hv. reflexivity.
  - rewrite narrowed_float. simpl in *. rewrite length_map, Hlen. simpl.
    apply forallb_forall. intros f Hf. apply in_map_iff in Hf.
    destruct Hf as [g [<- _]]. apply astype_float_valid.
  - rewrite narrowed_obj. simpl in *. rewrite Hlen. reflexivity.
Qed.

(** X16.  On a well-formed table (distinct labels, every column as long as
    the index, every cell a value of the declared type of its column)
    [reduce_dtypes] returns a well-formed table: no cell is left outside the
    type its column is cast to. *)
Lemma reduce_dtypes_wf (index_bytes : Z) (df : DataFrame) (verbose : bool) :
  wf_table df = true ->
  exists df' out,
    reduce_dtypes index_bytes df verbose = Some (df', out) /\ wf_table df' = true.
Proof.
  unfold wf_table. intros H. apply andb_true_iff in H. destruct H as [Hl Hc].
  destruct (reduce_dtypes_all index_bytes df verbose (NoDup_nodupb _ Hl)) as [out Hred].
  exists (mkDataFrame (index_len df) (narrow_all (columns df))), out.
  split; [exact Hred|]. apply andb_true_iff. split.
  - unfold labels. cbn [columns]. rewrite labels_narrow_all. exact Hl.
  - cbn [columns index_len]. unfold narrow_all.
    apply forallb_forall. intros c Hin. apply in_map_iff in Hin.
    destruct Hin as [c0 [<- Hin]]. cbn [snd].
    rewrite forallb_forall in Hc. apply wf_series_narrowed, Hc, Hin.
Qed.

(* ===================================================================== *)
(** * size_of_fmt *)
(* ===================================================================== *)

Lemma scaled_succ (num : spec_float) (k : nat) :
  scaled num (S k) = scaled (fdiv num (f64 1024)) k.
Proof. unfold scaled. rewrite Nat.iter_succ_r. reflexivity. Qed.

Lemma size_of_fmt_units_first (us : list string) (suffix : string) :
  forall (num : spec_float) (k : nat),
    (k < List.length us)%nat ->
    below_1024 num k = true ->
    (forall j, (j < k)%nat -> below_1024 num j = false) ->
    size_of_fmt_units us num suffix =
    String.append (Fmt.format_f 3 1 (scaled num k))
      (String.append (nth k us "") suffix).
Proof.
  induction us as [|u us IH]; intros num k Hk Hb Hprev; simpl in Hk; [lia|].
  destruct k as [|k].
  - simpl. unfold below_1024, scaled in Hb. simpl in Hb. rewrite Hb. reflexivity.
  - pose proof (Hprev O ltac:(lia)) as H0.
    unfold below_1024, scaled in H0. simpl in H0.
    simpl size_of_fmt_units. rewrite H0.
    rewrite scaled_succ. simpl nth. apply IH.
    + lia.
    + unfold below_1024. rewrite <- scaled_succ. exact Hb.
    + intros j Hj. unfold below_1024. rewrite <- scaled_succ.
      apply (Hprev (S j)). lia.
Qed.

Lemma size_of_fmt_units_none (us : list string) (suffix : string) :
  forall (num : spec_float),
    (forall j, (j < List.length us)%nat -> below_1024 num j = false) ->
    size_of_fmt_units us num suffix =
    String.append (Fmt.format_f 0 1 (scaled num (List.length us)))
      (String.append "Yi" suffix).
Proof.
  induction us as [|u us IH]; intros num Hall.
  - reflexivity.
  - pose proof (Hall O ltac:(simpl; lia)) as H0.
    unfold below_1024, scaled in H0. simpl in H0.
    simpl size_of_fmt_units. rewrite H0.
    simpl List.length. rewrite scaled_succ. apply IH.
    intros j Hj. unfold below_1024. rewrite <- scaled_succ.
    apply (Hall (S j)). simpl. lia.
Qed.

(** C8 (as amended).  [size_of_fmt] returns "0.0B", "1.0KiB" and "1023.0B"
    for 0, 1024 and 1023.  In general, for an argument that converts to a
    float, it picks the first, that is the smallest, prefix of the list
    none, Ki, Mi, Gi, Ti, Pi, Ei, Zi at which the magnitude, divided by
    1024.0 once per earlier prefix, is below 1024, and prints that scaled
    value with one decimal; when no listed prefix qualifies it prints the
    value scaled eight times with Yi.  An integer too large to convert to a
    float makes it raise. *)
Theorem size_of_fmt_first_unit :
  size_of_fmt_B (PyInt 0) = Some "0.0B" /\
  size_of_fmt_B (PyInt 1024) = Some "1.0KiB" /\
  size_of_fmt_B (PyInt 1023) = Some "1023.0B" /\
  (forall (num : scalar) (suffix : string) (x : spec_float) (k : nat),
      py_float num = Some x ->
      (k < 8)%nat ->
      below_1024 x k = true ->
      (forall j, (j < k)%nat -> below_1024 x j = false) ->
      size_of_fmt num suffix =
      Some (String.append (Fmt.format_f 3 1 (scaled x k))
              (String.append (nth k units "") suffix))) /\
  (forall (num : scalar) (suffix : string) (x : spec_float),
      py_float num = Some x ->
      (forall j, (j < 8)%nat -> below_1024 x j = false) ->
      size_of_fmt num suffix =
      Some (String.append (Fmt.format_f 0 1 (scaled x 8))
              (String.append "Yi" suffix))) /\
  (forall (num : scalar) (suffix : string),
      py_float num = None -> size_of_fmt num suffix = None).
Proof.
  split; [vm_compute; reflexivity|].
  split; [vm_compute; reflexivity|].
  split; [vm_compute; reflexivity|].
  split; [|split].
  - intros num suffix x k Hx Hk Hb Hprev. unfold size_of_fmt. rewrite Hx. f_equal.
    apply size_of_fmt_units_first; assumption.
  - intros num suffix x Hx Hall. unfold size_of_fmt. rewrite Hx. f_equal.
    apply (size_of_fmt_units_none units suffix x). exact Hall.
  - intros num suffix Hx. unfold size_of_fmt. rewrite Hx. reflexivity.
Qed.

(* ===================================================================== *)
(** * merge_by_concat *)
(* ===================================================================== *)

Lemma getitems_length (df : DataFrame) (on : list string) (ks : list Series) :
  getitems df on = Some ks -> List.length ks = List.length on.
Proof.
  revert ks. induction on as [|col rest IH]; intros ks H; simpl in H.
  - injection H as <-. reflexivity.
  - destruct (getitem df col); [|discriminate].
    destruct (getitems df rest) as [more|]; [|discriminate].
    injection H as <-. simpl. f_equal. apply IH. reflexivity.
Qed.

(** [df[on]] is the list of the key columns when each key names one column. *)
Lemma select_getitems (df : DataFrame) (on : list string) (ks : list Series) :
  getitems df on = Some ks ->
  select (columns df) on = Some (combine on ks).
Proof.
  revert ks. induction on as [|col rest IH]; intros ks H; simpl in H.
  - injection H as <-. reflexivity.
  - destruct (getitem df col) as [s|] eqn:Hs; [|discriminate].
    destruct (getitems df rest) as [more|] eqn:Hm; [|discriminate].
    injection H as <-. simpl.
    rewrite (getitem_label _ _ _ Hs), (IH more eq_refl). reflexivity.
Qed.

Lemma getitems_skip n (c : string * Series) (cs : list (string * Series)) (on : list string) :
  ~ In (fst c) on ->
  getitems (mkDataFrame n (c :: cs)) on = getitems (mkDataFrame n cs) on.
Proof.
  induction on as [|col rest IH]; intros H; [reflexivity|].
  simpl. rewrite IH by (intros K; apply H; now right).
  unfold getitem. simpl.
  destruct (String.eqb_spec (fst c) col) as [E|E].
  - exfalso. apply H. now left.
  - reflexivity.
Qed.

Lemma map_fst_combine (on : list string) (ks : list Series) :
  List.length ks = List.length on -> map fst (combine on ks) = on.
Proof.
  revert ks. induction on as [|col rest IH]; intros [|s more] H; simpl in *;
    try discriminate; [reflexivity|].
  f_equal. apply IH. lia.
Qed.

Lemma getitems_combine n (on : list string) (ks : list Series) :
  NoDup on -> List.length ks = List.length on ->
  getitems (mkDataFrame n (combine on ks)) on = Some ks.
Proof.
  revert ks. induction on as [|col rest IH]; intros [|s more] Hnd H; simpl in H;
    try discriminate; [reflexivity|].
  inversion Hnd as [|? ? Hnot Hnd']. subst.
  simpl combine. simpl getitems.
  rewrite (getitems_skip n (col, s) (combine rest more) rest Hnot).
  rewrite (IH more Hnd') by lia.
  unfold getitem. simpl. rewrite String.eqb_refl.
  rewrite filter_label_absent; [reflexivity|].
  rewrite map_fst_combine by lia. exact Hnot.
Qed.

Lemma nodupb_NoDup (l : list string) : NoDup l -> nodupb l = true.
Proof.
  induction 1 as [|x r Hx _ IH]; [reflexivity|].
  simpl. rewrite IH, andb_true_r. apply negb_true_iff.
  destruct (existsb (String.eqb x) r) eqn:E; [|reflexivity].
  apply existsb_exists in E. destruct E as [y [Hy Hxy]].
  apply String.eqb_eq in Hxy. subst y. contradiction.
Qed.

(** When no row of the left table joins two rows, the join has one row per
    row of the left table, paired with the row it joins, if any. *)
Lemma left_join_rows_single (ks ks' : list Series) (nright : nat) (rows : list nat) :
  (forall i, In i rows -> (List.length (matches ks ks' nright i) <= 1)%nat) ->
  flat_map (fun i =>
              match matches ks ks' nright i with
              | [] => [(i, None)]
              | js => map (fun j => (i, Some j)) js
              end) rows =
  map (fun i => (i, hd_error (matches ks ks' nright i))) rows.
Proof.
  induction rows as [|i rows IH]; intros H; [reflexivity|].
  change (flat_map ?f (i :: rows)) with (f i ++ flat_map f rows).
  rewrite IH by (intros k Hk; apply H; now right).
  change (map ?f (i :: rows)) with (f i :: map f rows). cbv beta.
  pose proof (H i (or_introl eq_refl)) as Hi.
  destruct (matches ks ks' nright i) as [|j [|j' r]];
    [reflexivity | reflexivity | cbn [List.length] in Hi; lia].
Qed.

Lemma all_some_false {A} (rows : list (option A)) (i : nat) :
  nth_error rows i = Some None -> all_some rows = false.
Proof.
  intros H. unfold all_some.
  destruct (forallb _ rows) eqn:E; [|reflexivity].
  rewrite forallb_forall in E.
  specialize (E None (nth_error_In _ _ H)). discriminate.
Qed.

(** A row without a source row holds the missing-value placeholder. *)
Lemma take_missing_isna (s : Series) (rows : list (option nat)) (i : nat) :
  nth_error rows i = Some None -> isna (take_missing s rows) i = true.
Proof.
  intros H. unfold take_missing. rewrite (all_some_false rows i H).
  destruct s as [t v|t v|t v]; unfold isna, iloc;
    rewrite nth_error_map, H; reflexivity.
Qed.

(** Selecting the labels of a block of columns with distinct labels, none of
    which occurs before the block, returns the block. *)
Lemma select_block (A post pre : list (string * Series)) :
  NoDup (map fst (pre ++ post)) ->
  (forall l, In l (map fst (pre ++ post)) -> ~ In l (map fst A)) ->
  select (A ++ pre ++ post) (map fst post) = Some post.
Proof.
  revert pre. induction post as [|c post IH]; intros pre Hnd Hdis; [reflexivity|].
  simpl.
  replace (A ++ pre ++ c :: post) with (A ++ (pre ++ [c]) ++ post)
    by (rewrite <- (app_assoc pre); reflexivity).
  rewrite IH.
  - rewrite <- (app_assoc pre). simpl.
    rewrite !filter_label_app. simpl. rewrite String.eqb_refl.
    rewrite map_app in Hnd. simpl in Hnd.
    destruct (NoDup_app_cons_absent _ _ _ Hnd) as [Ha Hb].
    rewrite (filter_label_absent _ A), (filter_label_absent _ pre Ha),
      (filter_label_absent _ post Hb).
    + reflexivity.
    + apply Hdis. rewrite map_app. apply in_or_app. right. now left.
  - rewrite <- (app_assoc pre). exact Hnd.
  - rewrite <- (app_assoc pre). exact Hdis.
Qed.

Lemma filter_not_key_keys (on : list string) :
  filter (fun col => negb (str_in col on)) on = [].
Proof.
  assert (G : forall l, incl l on -> filter (fun col => negb (str_in col on)) l = []).
  { induction l as [|x l IH]; intros Hin; [reflexivity|]. simpl.
    replace (str_in x on) with true.
    - simpl. apply IH. intros y Hy. apply Hin. now right.
    - symmetry. apply existsb_exists. exists x. split.
      + apply Hin. now left.
      + apply String.eqb_refl. }
  apply G, incl_refl.
Qed.

Lemma map_fst_filter_label (P : string -> bool) (cs : list (string * Series)) :
  map fst (filter (fun c => P (fst c)) cs) = filter P (map fst cs).
Proof.
  induction cs as [|c cs IH]; [reflexivity|]. simpl.
  destruct (P (fst c)); simpl; rewrite IH; reflexivity.
Qed.

Lemma filter_idem {A} (P : A -> bool) (l : list A) :
  filter P (filter P l) = filter P l.
Proof.
  induction l as [|x l IH]; [reflexivity|]. simpl.
  destruct (P x) eqn:E; simpl; rewrite ?E, IH; reflexivity.
Qed.

Lemma labels_setitem (df : DataFrame) (col : string) (s : Series) :
  In col (labels df) -> labels (setitem df col s) = labels df.
Proof.
  intros Hin. unfold setitem.
  replace (existsb (String.eqb col) (labels df)) with true.
  - unfold labels. cbn [columns]. rewrite map_map. apply map_ext.
    intros c. destruct (String.eqb (fst c) col); reflexivity.
  - symmetry. apply existsb_exists. exists col. split;
      [exact Hin | apply String.eqb_refl].
Qed.

(** Assigning to labels of the table keeps its labels and its row count. *)
Lemma setitems_labels (cols : list string) (ss : list Series) (df : DataFrame) :
  incl cols (labels df) ->
  labels (setitems df cols ss) = labels df /\
  index_len (setitems df cols ss) = index_len df.
Proof.
  revert ss df. induction cols as [|col rest IH]; intros ss df Hin;
    [split; reflexivity|].
  destruct ss as [|s more]; [split; reflexivity|].
  cbn [setitems].
  assert (Hcol : In col (labels df)) by (apply Hin; now left).
  destruct (IH more (setitem df col s)) as [H1 H2].
  - rewrite (labels_setitem df col s Hcol). intros l Hl. apply Hin. now right.
  - rewrite H1, H2. split; [apply labels_setitem, Hcol|].
    unfold setitem. destruct (existsb _ _); reflexivity.
Qed.

(** The merge of the key columns of the primary table with the secondary
    table, once the keys passed the dtype check: the key columns, under
    their labels, and the gathered non-key columns of the secondary table. *)
Lemma merge_left_keys (other_keys : key_rule) n1 (df2 : DataFrame) (on : list string)
  (ks ks' cks cks' : list Series) :
  on <> [] -> NoDup on -> List.length ks = List.length on ->
  getitems df2 on = Some ks' ->
  coerce_merge_keys other_keys ks ks' = Some (cks, cks') ->
  exists A,
    map fst A = on /\
    merge_left other_keys (mkDataFrame n1 (combine on ks)) df2 on =
    let rows := left_join_rows cks cks' n1 (index_len df2) in
    Some (mkDataFrame (List.length rows)
            (A ++ map (fun c => (fst c, take_missing (snd c) (map snd rows)))
                    (filter (fun c => negb (str_in (fst c) on)) (columns df2)))).
Proof.
  intros Hne Hnd Hlen Hks' Hck.
  exists (map (fun c : string * Series =>
                 (fst c, take (snd c)
                           (map fst (left_join_rows cks cks' n1 (index_len df2)))))
              (columns (setitems (mkDataFrame n1 (combine on ks)) on cks))).
  split.
  - rewrite map_map.
    change (labels (setitems (mkDataFrame n1 (combine on ks)) on cks) = on).
    destruct (setitems_labels on cks (mkDataFrame n1 (combine on ks))) as [H _].
    + unfold labels. cbn [columns]. rewrite map_fst_combine by exact Hlen.
      apply incl_refl.
    + rewrite H. unfold labels. cbn [columns].
      apply map_fst_combine, Hlen.
  - unfold merge_left.
    destruct on as [|col rest]; [congruence|].
    rewrite (nodupb_NoDup _ Hnd), (getitems_combine n1 _ _ Hnd Hlen), Hks', Hck.
    reflexivity.
Qed.

(** The new columns of the merged frame, selected by their labels. *)
Lemma select_new_columns (A B : list (string * Series)) (merge_on : list string)
  (cs2 : list (string * Series)) :
  map fst A = merge_on ->
  map fst B = filter (fun l => negb (str_in l merge_on)) (map fst cs2) ->
  NoDup (map fst cs2) ->
  select (A ++ B)
    (filter (fun col => negb (str_in col merge_on)) (map fst (A ++ B))) = Some B.
Proof.
  intros HlabA HlabB Hnd2.
  rewrite map_app, HlabA, HlabB, filter_app, filter_not_key_keys, filter_idem.
  cbn [app]. rewrite <- HlabB.
  change (A ++ B) with (A ++ [] ++ B).
  apply (select_block A B []).
  - cbn [app]. rewrite HlabB. apply NoDup_filter. exact Hnd2.
  - cbn [app]. intros l Hl. rewrite HlabB in Hl. rewrite HlabA.
    apply filter_In in Hl. destruct Hl as [_ Hl]. intros Hin.
    apply negb_true_iff in Hl.
    assert (str_in l merge_on = true); [|congruence].
    apply existsb_exists. exists l. split; [exact Hin | apply String.eqb_refl].
Qed.

(** The pipeline of [merge_by_concat] when the keys are in order and pass
    the dtype check: the primary table side by side with the gathered
    non-key columns of the secondary table. *)
Lemma merge_by_concat_eq (other_keys : key_rule)
  (df1 df2 : DataFrame) (merge_on : list string) (ks ks' cks cks' : list Series) :
  merge_on <> [] ->
  NoDup merge_on ->
  NoDup (labels df2) ->
  getitems df1 merge_on = Some ks ->
  getitems df2 merge_on = Some ks' ->
  coerce_merge_keys other_keys ks ks' = Some (cks, cks') ->
  merge_by_concat other_keys df1 df2 merge_on =
  let rows := left_join_rows cks cks' (index_len df1) (index_len df2) in
  Some (concat_axis1 df1
          (mkDataFrame (List.length rows)
             (map (fun c => (fst c, take_missing (snd c) (map snd rows)))
                  (filter (fun c => negb (str_in (fst c) merge_on)) (columns df2))))).
Proof.
  intros Hne Hnd Hnd2 Hks Hks' Hck. cbv zeta.
  pose proof (getitems_length _ _ _ Hks) as Hlen.
  set (rows := left_join_rows cks cks' (index_len df1) (index_len df2)).
  set (B := map (fun c : string * Series => (fst c, take_missing (snd c) (map snd rows)))
                (filter (fun c => negb (str_in (fst c) merge_on)) (columns df2))).
  assert (HlabB : map fst B = filter (fun l => negb (str_in l merge_on)) (labels df2)).
  { unfold B. rewrite map_map. simpl.
    apply (map_fst_filter_label (fun l => negb (str_in l merge_on))). }
  unfold merge_by_concat, getitem_list.
  rewrite (select_getitems _ _ _ Hks). cbn [option_map index_len].
  destruct (merge_left_keys other_keys (index_len df1) df2 merge_on ks ks' cks cks'
              Hne Hnd Hlen Hks' Hck) as [A [HlabA Hm]].
  rewrite Hm. cbv zeta. fold rows. fold B.
  unfold labels at 1. cbn [columns index_len].
  rewrite (select_new_columns A B merge_on (columns df2) HlabA HlabB Hnd2).
  reflexivity.
Qed.

(** C7 (as amended).  Both tables carry the default positional index, the
    secondary table has distinct labels, the join keys are a non-empty
    list of distinct labels, each naming one column of either table, and
    the key columns pass the dtype check of the merge, which joins the
    rows on [cks] and [cks'] (the key columns themselves when each key has
    one dtype, or an integer or float dtype, in both tables, float16
    apart).  When every
    row of the primary table joins at most one row of the secondary table,
    [merge_by_concat] returns a table with the row count of the primary
    table whose columns are the columns of the primary table, unchanged
    and in their order, followed by the non-key columns of the secondary
    table; in these new columns a primary row that joins no row holds the
    missing-value placeholder. *)
Theorem merge_by_concat_left_join (other_keys : key_rule)
  (df1 df2 : DataFrame) (merge_on : list string) (ks ks' cks cks' : list Series) :
  merge_on <> [] ->
  NoDup merge_on ->
  NoDup (labels df2) ->
  getitems df1 merge_on = Some ks ->
  getitems df2 merge_on = Some ks' ->
  coerce_merge_keys other_keys ks ks' = Some (cks, cks') ->
  (forall i, (i < index_len df1)%nat ->
             (List.length (matches cks cks' (index_len df2) i) <= 1)%nat) ->
  exists r new,
    merge_by_concat other_keys df1 df2 merge_on = Some r /\
    index_len r = index_len df1 /\
    columns r = columns df1 ++ new /\
    new = map (fun c => (fst c,
                         take_missing (snd c)
                           (map (fun i => hd_error (matches cks cks' (index_len df2) i))
                                (seq 0 (index_len df1)))))
              (filter (fun c => negb (str_in (fst c) merge_on)) (columns df2)) /\
    map fst new = filter (fun l => negb (str_in l merge_on)) (labels df2) /\
    forall l s i,
      In (l, s) new -> (i < index_len df1)%nat ->
      matches cks cks' (index_len df2) i = [] -> isna s i = true.
Proof.
  intros Hne Hnd Hnd2 Hks Hks' Hck Hone.
  set (rows := map (fun i => (i, hd_error (matches cks cks' (index_len df2) i)))
                   (seq 0 (index_len df1))).
  assert (Hrows : left_join_rows cks cks' (index_len df1) (index_len df2) = rows).
  { unfold left_join_rows. apply left_join_rows_single.
    intros i Hi. apply Hone. apply in_seq in Hi. lia. }
  set (B := map (fun c : string * Series => (fst c, take_missing (snd c) (map snd rows)))
                (filter (fun c => negb (str_in (fst c) merge_on)) (columns df2))).
  assert (HlabB : map fst B = filter (fun l => negb (str_in l merge_on)) (labels df2)).
  { unfold B. rewrite map_map. simpl.
    apply (map_fst_filter_label (fun l => negb (str_in l merge_on))). }
  exists (mkDataFrame (index_len df1) (columns df1 ++ B)), B.
  split; [|split; [reflexivity|split; [reflexivity|split; [|split; [exact HlabB|]]]]].
  2:{ unfold B, rows. rewrite map_map. reflexivity. }
  - rewrite (merge_by_concat_eq other_keys _ _ _ _ _ _ _ Hne Hnd Hnd2 Hks Hks' Hck).
    cbv zeta. rewrite Hrows. fold B.
    unfold concat_axis1. cbn [index_len columns].
    unfold rows at 1. rewrite length_map, length_seq, Nat.eqb_refl. reflexivity.
  - intros l s i Hin Hi Hnone. unfold B in Hin. apply in_map_iff in Hin.
    destruct Hin as [c [Hc _]]. injection Hc as _ <-.
    apply take_missing_isna. unfold rows. rewrite map_map. cbn [snd].
    rewrite nth_error_map.
    rewrite (nth_error_nth' _ O) by (rewrite length_seq; exact Hi).
    rewrite seq_nth by exact Hi. cbn [option_map Nat.add]. rewrite Hnone. reflexivity.
Qed.

(* ===================================================================== *)
(** * Where the claims fail *)
(* ===================================================================== *)

(** C1 fails on [boundary_table]: both columns are non-empty integer columns
    and both come back as they went in, the first declared int8 with maximum
    127 = int8.max, the second declared int64 with maximum int64.max. *)
Lemma reduce_dtypes_int_boundary :
  wf_table boundary_table = true /\
  reduce_dtypes 128 boundary_table false = Some (boundary_table, []) /\
  strictly_inside_int int8 (IntSeries int8 [127]) = false /\
  strictly_inside_int int64 (IntSeries int64 [iinfo_max int64]) = false.
Proof. vm_compute. repeat split. Qed.

(** C2 fails on [table_2049]: the cell 2049.0 comes back as the float16 cell
    2048.0. *)
Lemma reduce_dtypes_changes_float_cell :
  wf_table table_2049 = true /\
  reduce_dtypes 128 table_2049 false =
    Some (mkDataFrame 1 [("x", FloatSeries float16 [S754_finite false 1024 1])], []) /\
  astype_float float64 (S754_finite false 1024 1) = f64 2048 /\
  SFeqb (f64 2048) (f64 2049) = false.
Proof. vm_compute. repeat split. Qed.

(** C3 fails on [empty_table]: the empty float32 column comes back declared
    float64. *)
Lemma reduce_dtypes_empty_float_widened :
  wf_table empty_table = true /\
  reduce_dtypes 128 empty_table false =
    Some (mkDataFrame 0 [("x", FloatSeries float64 []); ("n", IntSeries int32 [])], []) /\
  dtypes (FloatSeries float64 []) <> dtypes (FloatSeries float32 []).
Proof. split; [|split]; [vm_compute; reflexivity .. | discriminate]. Qed.

(** C6 fails on [table_65500]: the first application yields a float16 column
    holding 65504.0, the second turns it into a float32 column. *)
Lemma reduce_dtypes_not_idempotent :
  let once := mkDataFrame 1 [("x", FloatSeries float16 [finfo_max float16])] in
  let twice := mkDataFrame 1 [("x", FloatSeries float32 [astype_float float32 (f64 65504)])] in
  wf_table table_65500 = true /\
  reduce_dtypes 128 table_65500 false = Some (once, []) /\
  reduce_dtypes 128 once false = Some (twice, []) /\
  twice <> once.
Proof. vm_compute. repeat split. discriminate. Qed.

(** C7 fails on [primary] and [secondary_repeated]: the one row of the
    primary table joins two rows; the result has two rows, and the columns
    of the primary table come back as float64 with a missing cell. *)
Lemma merge_by_concat_repeated_key :
  merge_by_concat refuse_keys primary secondary_repeated ["id"] =
    Some (mkDataFrame 2
            [("id", FloatSeries float64 [f64 1; nan]);
             ("a", FloatSeries float64 [f64 10; nan]);
             ("b", IntSeries int64 [20; 30])]) /\
  wf_table primary = true /\
  wf_table secondary_repeated = true /\
  index_len primary = 1%nat /\
  getitem primary "a" = Some (IntSeries int64 [10]).
Proof. vm_compute. repeat split. Qed.

(** C8 fails at 0: the value scaled to Zi, the largest listed prefix, is
    below 1024 as well, yet the prefix printed is the first one. *)
Lemma size_of_fmt_not_largest_unit :
  size_of_fmt_B (PyInt 0) = Some "0.0B" /\
  py_float (PyInt 0) = Some (f64 0) /\
  below_1024 (f64 0) 7 = true /\
  nth 7 units "" = "Zi" /\
  size_of_fmt_B (PyInt 0) <>
    Some (String.append (Fmt.format_f 3 1 (scaled (f64 0) 7))
            (String.append (nth 7 units "") "B")).
Proof. vm_compute. repeat split. discriminate. Qed.

(* ===================================================================== *)
(** * The theorems at concrete tables *)
(* ===================================================================== *)

Lemma reduce_dtypes_int_minimal_mixed :
  exists df' out t',
    reduce_dtypes 128 mixed_table true = Some (df', out) /\
    nth_error (columns df') 0 = Some ("a", IntSeries t' [1; 127; -128]) /\
    strictly_inside_int t' (IntSeries t' [1; 127; -128]) = true /\
    forall u, In u int_candidates -> bits u < bits t' ->
              strictly_inside_int u (IntSeries t' [1; 127; -128]) = false.
Proof.
  apply (reduce_dtypes_int_minimal 128 mixed_table true 0 "a" int64 [1; 127; -128]).
  - distinct_labels.
  - reflexivity.
  - reflexivity.
  - reflexivity.
Defined.

Lemma reduce_dtypes_frame_mixed :
  exists df' out,
    reduce_dtypes 128 mixed_table true = Some (df', out) /\
    index_len df' = index_len mixed_table /\
    labels df' = labels mixed_table /\
    forall i l s,
      nth_error (columns mixed_table) i = Some (l, s) ->
      exists s',
        nth_error (columns df') i = Some (l, s') /\
        len s' = len s /\
        (processed s = false -> s' = s) /\
        match s with
        | ObjSeries _ _ => s' = s
        | IntSeries _ v => exists t', s' = IntSeries t' v
        | FloatSeries _ v =>
            exists t', s' = FloatSeries t' (map (astype_float t') v) /\
                       ((forall f, In f v -> valid t' f = true) -> s' = FloatSeries t' v)
        end.
Proof.
  apply (reduce_dtypes_frame 128 mixed_table true). distinct_labels.
Defined.

Lemma reduce_dtypes_empty_column_empty_table :
  exists df' out s',
    reduce_dtypes 128 empty_table false = Some (df', out) /\
    nth_error (columns df') 1 = Some ("n", s') /\
    len s' = O /\
    s' = IntSeries int32 [].
Proof.
  apply (reduce_dtypes_empty_column 128 empty_table false 1 "n" (IntSeries int32 [])).
  - distinct_labels.
  - reflexivity.
  - reflexivity.
Defined.

Lemma reduce_dtypes_int8_max_promoted_mixed :
  exists df' out,
    reduce_dtypes 128 mixed_table false = Some (df', out) /\
    nth_error (columns df') 0 = Some ("a", IntSeries int16 [1; 127; -128]).
Proof.
  apply (reduce_dtypes_int8_max_promoted 128 mixed_table false 0 "a" int64 [1; 127; -128]).
  - distinct_labels.
  - reflexivity.
  - reflexivity.
  - simpl. auto.
  - intros z Hz. change (iinfo_min int8) with (-128). change (iinfo_max int8) with 127.
    simpl in Hz. lia.
Defined.

Lemma reduce_dtypes_float_narrowest_mixed :
  exists df' out t',
    reduce_dtypes 128 mixed_table false = Some (df', out) /\
    nth_error (columns df') 1 =
      Some ("b", FloatSeries t' (map (astype_float t') [f64 1; f64 2049; f64 (-3)])) /\
    t' = narrowest_float (FloatSeries float64 [f64 1; f64 2049; f64 (-3)]) /\
    (strictly_inside_float float16 (FloatSeries float64 [f64 1; f64 2049; f64 (-3)]) = true ->
     t' = float16) /\
    (strictly_inside_float float16 (FloatSeries float64 [f64 1; f64 2049; f64 (-3)]) = false ->
     strictly_inside_float float32 (FloatSeries float64 [f64 1; f64 2049; f64 (-3)]) = true ->
     t' = float32) /\
    (strictly_inside_float float16 (FloatSeries float64 [f64 1; f64 2049; f64 (-3)]) = false ->
     strictly_inside_float float32 (FloatSeries float64 [f64 1; f64 2049; f64 (-3)]) = false ->
     t' = float64).
Proof.
  apply (reduce_dtypes_float_narrowest 128 mixed_table false 1 "b" float64
           [f64 1; f64 2049; f64 (-3)]).
  - distinct_labels.
  - reflexivity.
Defined.

Lemma reduce_dtypes_twice_mixed :
  exists df1 out1 out2,
    reduce_dtypes 128 mixed_table false = Some (df1, out1) /\
    reduce_dtypes 128 df1 false = Some (df1, out2).
Proof.
  destruct (reduce_dtypes_twice 128 mixed_table false false)
    as (df1 & out1 & df2 & out2 & H1 & H2 & _ & _ & Hfix).
  - distinct_labels.
  - exists df1, out1, out2. split; [exact H1|].
    rewrite H2. do 2 f_equal. apply Hfix.
    vm_compute in H1. injection H1 as <- _.
    intros l t v Hin. simpl in Hin.
    repeat (destruct Hin as [Hin|Hin]; [try discriminate Hin; injection Hin as _ <- <-; vm_compute; reflexivity|]).
    contradiction.
Defined.

Lemma reduce_dtypes_int8_skipped_mixed :
  numerics = ["int16"; "int32"; "int64"; "float16"; "float32"; "float64"] /\
  processed (IntSeries int8 [127; 0; 0]) = false /\
  exists df' out,
    reduce_dtypes 128 mixed_table true = Some (df', out) /\
    nth_error (columns df') 3 = Some ("d", IntSeries int8 [127; 0; 0]).
Proof.
  apply (reduce_dtypes_int8_skipped 128 mixed_table true 3 "d" [127; 0; 0]).
  - distinct_labels.
  - reflexivity.
Defined.

Lemma size_of_fmt_5000 : size_of_fmt (PyInt 5000) "B" = Some "4.9KiB".
Proof.
  destruct size_of_fmt_first_unit as (_ & _ & _ & H & _).
  rewrite (H (PyInt 5000) "B" (f64 5000) 1%nat).
  - vm_compute. reflexivity.
  - reflexivity.
  - lia.
  - vm_compute. reflexivity.
  - intros j Hj. assert (j = O) by lia. subst j. vm_compute. reflexivity.
Defined.

Lemma merge_by_concat_no_match :
  exists r new,
    merge_by_concat refuse_keys primary secondary_no_match ["id"] = Some r /\
    index_len r = index_len primary /\
    columns r = columns primary ++ new /\
    map fst new = ["b"] /\
    forall l s, In (l, s) new -> isna s 0 = true.
Proof.
  destruct (merge_by_concat_left_join refuse_keys primary secondary_no_match ["id"]
              [IntSeries int64 [1]] [IntSeries int64 [2]]
              [IntSeries int64 [1]] [IntSeries int64 [2]])
    as (r & new & H1 & H2 & H3 & _ & H5 & H6).
  - discriminate.
  - distinct_labels.
  - distinct_labels.
  - reflexivity.
  - reflexivity.
  - reflexivity.
  - intros i Hi. simpl in Hi. assert (i = O) by lia. subst i. vm_compute. lia.
  - exists r, new. repeat split; try assumption.
    intros l s Hin. apply (H6 l s O Hin); [simpl; lia | reflexivity].
Defined.

(* ===================================================================== *)
(** * Further properties of reduce_dtypes *)
(* ===================================================================== *)

Lemma itemsize_int_mono (a b : int_dtype) :
  bits a <= bits b -> itemsize (DInt a) <= itemsize (DInt b).
Proof. destruct a, b; simpl; intros H; try lia; vm_compute; discriminate. Qed.

(** A column inside the range of its own type is not given a wider type. *)
Lemma narrowed_not_wider (s : Series) :
  inside_own_range s = true ->
  itemsize (dtypes (narrowed s)) <= itemsize (dtypes s).
Proof.
  destruct s as [t v|t v|t v]; intros H.
  - destruct (int_dtype_eq_dec_aux t) as [->|Ht].
    + rewrite narrowed_int8. lia.
    + destruct (narrowed_int_spec t v Ht) as [t' [-> [[A B]|[-> _]]]]; [|lia].
      simpl dtypes. apply itemsize_int_mono.
      destruct (Z_le_gt_dec (bits t') (bits t)) as [L|G]; [exact L|].
      simpl in H. rewrite (strictly_inside_int_dtype t t t'), B in H by lia.
      discriminate.
  - rewrite narrowed_float_ladder.
    destruct (strictly_inside_float float16 (FloatSeries t v)) eqn:E16.
    + destruct t; vm_compute; discriminate.
    + destruct (strictly_inside_float float32 (FloatSeries t v)) eqn:E32.
      * destruct t; try (vm_compute; discriminate).
        simpl in H. rewrite E16 in H. discriminate.
      * destruct t; simpl in H; try (vm_compute; discriminate);
          rewrite ?E16, ?E32 in H; discriminate.
  - rewrite narrowed_obj. lia.
Qed.

Lemma narrowed_len (s : Series) : len (narrowed s) = len s.
Proof.
  destruct s as [t v|t v|t v].
  - destruct (narrowed_int_values t v) as [t' ->]. reflexivity.
  - rewrite narrowed_float. simpl. apply length_map.
  - rewrite narrowed_obj. reflexivity.
Qed.

Lemma fold_add_le (xs ys : list Z) :
  Forall2 Z.le xs ys ->
  forall a b, a <= b -> fold_left Z.add xs a <= fold_left Z.add ys b.
Proof.
  induction 1 as [|x y xs ys Hxy _ IH]; intros a b Hab; simpl; [exact Hab|].
  apply IH. lia.
Qed.

Lemma nbytes_narrow_all_le (cs : list (string * Series)) :
  (forall l s, In (l, s) cs -> inside_own_range s = true) ->
  Forall2 Z.le (map (fun c => nbytes (snd c)) (narrow_all cs))
               (map (fun c => nbytes (snd c)) cs).
Proof.
  induction cs as [|[l s] cs IH]; intros Hall; simpl; constructor.
  - pose proof (narrowed_not_wider s (Hall l s (or_introl eq_refl))) as Hw.
    unfold nbytes. rewrite narrowed_len. nia.
  - apply IH. intros l' s' H'. apply (Hall l' s'). now right.
Qed.

(** X1.  An integer or float column of a table with distinct labels whose
    values lie strictly inside the range of its own declared type (any
    float64 column counts) is never given a wider type: the bytes per cell
    and the bytes of the column do not grow. *)
Theorem reduce_dtypes_never_widens_inside
  (index_bytes : Z) (df : DataFrame) (verbose : bool)
  (i : nat) (l : string) (s : Series) :
  NoDup (labels df) ->
  nth_error (columns df) i = Some (l, s) ->
  inside_own_range s = true ->
  exists df' out s',
    reduce_dtypes index_bytes df verbose = Some (df', out) /\
    nth_error (columns df') i = Some (l, s') /\
    itemsize (dtypes s') <= itemsize (dtypes s) /\
    nbytes s' <= nbytes s.
Proof.
  intros Hnd Hcol Hin.
  destruct (reduce_dtypes_all index_bytes df verbose Hnd) as [out Hred].
  exists (mkDataFrame (index_len df) (narrow_all (columns df))), out, (narrowed s).
  split; [exact Hred|]. split.
  - cbn [columns]. apply (nth_error_narrow_all _ _ _ _ Hcol).
  - pose proof (narrowed_not_wider s Hin) as Hw. split; [exact Hw|].
    unfold nbytes. rewrite narrowed_len. nia.
Qed.

(** X2.  When every column of a table with distinct labels lies strictly
    inside the range of its own declared type, the memory the table reports
    after [reduce_dtypes] is at most the memory it reported before. *)
Theorem reduce_dtypes_memory_not_larger
  (index_bytes : Z) (df : DataFrame) (verbose : bool) :
  NoDup (labels df) ->
  (forall l s, In (l, s) (columns df) -> inside_own_range s = true) ->
  exists df' out,
    reduce_dtypes index_bytes df verbose = Some (df', out) /\
    memory_usage_sum index_bytes df' <= memory_usage_sum index_bytes df.
Proof.
  intros Hnd Hall.
  destruct (reduce_dtypes_all index_bytes df verbose Hnd) as [out Hred].
  exists (mkDataFrame (index_len df) (narrow_all (columns df))), out.
  split; [exact Hred|].
  unfold memory_usage_sum. cbn [columns]. apply fold_add_le; [|lia].
  apply nbytes_narrow_all_le, Hall.
Qed.

Lemma int_range_fold (a b x : Z) (xs : list Z) :
  (forall z, In z (x :: xs) -> a <= z <= b) ->
  a <= fold_left Z.min xs x /\ fold_left Z.max xs x <= b.
Proof.
  intros H. split.
  - apply (H _ (fold_min_in xs x)).
  - apply (H _ (fold_max_in xs x)).
Qed.

Lemma int_bound_fold (a b x : Z) (xs : list Z) :
  (forall z, In z (x :: xs) -> a <= z <= b) ->
  In b (x :: xs) \/ In a (x :: xs) ->
  fold_left Z.max xs x = b \/ fold_left Z.min xs x = a.
Proof.
  intros H Hin. destruct (int_range_fold a b x xs H) as [Hlo Hhi].
  destruct (fold_min_le xs x) as [L1 L2], (fold_max_ge xs x) as [U1 U2].
  destruct Hin as [[<-|Hb]|[<-|Ha]].
  - left. lia.
  - left. specialize (U2 _ Hb). lia.
  - right. lia.
  - right. specialize (L2 _ Ha). lia.
Qed.

(** X3.  The strict comparisons also widen: a well-formed int16 or int32
    column that holds the largest or the smallest value of its own type
    fails the test for that type and is cast to the next wider type (int32,
    int64), keeping its cells. *)
Theorem reduce_dtypes_widens_at_own_bound
  (index_bytes : Z) (df : DataFrame) (verbose : bool)
  (i : nat) (l : string) (t : int_dtype) (v : list Z) :
  NoDup (labels df) ->
  nth_error (columns df) i = Some (l, IntSeries t v) ->
  t = int16 \/ t = int32 ->
  (forall z, In z v -> iinfo_min t <= z <= iinfo_max t) ->
  In (iinfo_max t) v \/ In (iinfo_min t) v ->
  exists df' out,
    reduce_dtypes index_bytes df verbose = Some (df', out) /\
    nth_error (columns df') i = Some (l, IntSeries (next_int t) v) /\
    itemsize (DInt (next_int t)) = 2 * itemsize (DInt t).
Proof.
  intros Hnd Hcol Ht Hfit Hb.
  destruct (reduce_dtypes_all index_bytes df verbose Hnd) as [out Hred].
  exists (mkDataFrame (index_len df) (narrow_all (columns df))), out.
  split; [exact Hred|]. split; [|destruct Ht as [-> | ->]; reflexivity].
  cbn [columns]. rewrite (nth_error_narrow_all _ _ _ _ Hcol). do 2 f_equal.
  assert (Hne : t <> int8) by (destruct Ht as [-> | ->]; discriminate).
  rewrite (narrowed_int_ladder t v Hne).
  destruct v as [|x xs]; [destruct Hb as [[]|[]]|].
  destruct (int_range_fold _ _ x xs Hfit) as [Hlo Hhi].
  pose proof (int_bound_fold _ _ x xs Hfit Hb) as Hat.
  assert (Hin : forall u, strictly_inside_int u (IntSeries t (x :: xs)) = true ->
                          iinfo_min u < fold_left Z.min xs x /\
                          fold_left Z.max xs x < iinfo_max u).
  { intros u Hu. rewrite strictly_inside_int_cons in Hu.
    apply andb_true_iff in Hu. destruct Hu as [A B].
    apply Z.gtb_lt in A. apply Z.ltb_lt in B. split; assumption. }
  assert (Hout : forall u, iinfo_min u < fold_left Z.min xs x ->
                           fold_left Z.max xs x < iinfo_max u ->
                           strictly_inside_int u (IntSeries t (x :: xs)) = true).
  { intros u A B. rewrite strictly_inside_int_cons. apply andb_true_iff.
    split; [apply Z.gtb_lt | apply Z.ltb_lt]; assumption. }
  destruct Ht as [-> | ->].
  - change (iinfo_min int16) with (-32768) in *. change (iinfo_max int16) with 32767 in *.
    destruct (strictly_inside_int int8 (IntSeries int16 (x :: xs))) eqn:E8.
    { apply Hin in E8. change (iinfo_min int8) with (-128) in E8.
      change (iinfo_max int8) with 127 in E8. lia. }
    destruct (strictly_inside_int int16 (IntSeries int16 (x :: xs))) eqn:E16.
    { apply Hin in E16. change (iinfo_min int16) with (-32768) in E16.
      change (iinfo_max int16) with 32767 in E16. lia. }
    assert (E32 : strictly_inside_int int32 (IntSeries int16 (x :: xs)) = true).
    { apply Hout; [change (iinfo_min int32) with (-2147483648)
                  | change (iinfo_max int32) with 2147483647]; lia. }
    rewrite E32. apply (astype_int_inside _ _ _ E32).
  - change (iinfo_min int32) with (-2147483648) in *.
    change (iinfo_max int32) with 2147483647 in *.
    destruct (strictly_inside_int int8 (IntSeries int32 (x :: xs))) eqn:E8.
    { apply Hin in E8. change (iinfo_min int8) with (-128) in E8.
      change (iinfo_max int8) with 127 in E8. lia. }
    destruct (strictly_inside_int int16 (IntSeries int32 (x :: xs))) eqn:E16.
    { apply Hin in E16. change (iinfo_min int16) with (-32768) in E16.
      change (iinfo_max int16) with 32767 in E16. lia. }
    destruct (strictly_inside_int int32 (IntSeries int32 (x :: xs))) eqn:E32.
    { apply Hin in E32. change (iinfo_min int32) with (-2147483648) in E32.
      change (iinfo_max int32) with 2147483647 in E32. lia. }
    assert (E64 : strictly_inside_int int64 (IntSeries int32 (x :: xs)) = true).
    { apply Hout; [change (iinfo_min int64) with (-9223372036854775808)
                  | change (iinfo_max int64) with 9223372036854775807]; lia. }
    rewrite E64. apply (astype_int_inside _ _ _ E64).
Qed.

(** X4.  For a processed integer column strictly inside the int64 range the
    outcome is decided by the cells alone: two tables that hold the same
    cells under different declared types (int16, int32 or int64) get the
    same column back. *)
Theorem reduce_dtypes_int_type_irrelevant
  (index_bytes : Z) (df1 df2 : DataFrame) (verbose : bool)
  (i j : nat) (l : string) (t1 t2 : int_dtype) (v : list Z) :
  NoDup (labels df1) -> NoDup (labels df2) ->
  nth_error (columns df1) i = Some (l, IntSeries t1 v) ->
  nth_error (columns df2) j = Some (l, IntSeries t2 v) ->
  processed (IntSeries t1 v) = true ->
  processed (IntSeries t2 v) = true ->
  strictly_inside_int int64 (IntSeries t1 v) = true ->
  exists df1' out1 df2' out2 c,
    reduce_dtypes index_bytes df1 verbose = Some (df1', out1) /\
    reduce_dtypes index_bytes df2 verbose = Some (df2', out2) /\
    nth_error (columns df1') i = Some c /\
    nth_error (columns df2') j = Some c.
Proof.
  intros Hnd1 Hnd2 Hc1 Hc2 Hp1 Hp2 Hin.
  destruct (reduce_dtypes_all index_bytes df1 verbose Hnd1) as [out1 Hred1].
  destruct (reduce_dtypes_all index_bytes df2 verbose Hnd2) as [out2 Hred2].
  exists (mkDataFrame (index_len df1) (narrow_all (columns df1))), out1,
    (mkDataFrame (index_len df2) (narrow_all (columns df2))), out2,
    (l, narrowed (IntSeries t1 v)).
  split; [exact Hred1|]. split; [exact Hred2|]. cbn [columns]. split.
  - apply (nth_error_narrow_all _ _ _ _ Hc1).
  - rewrite (nth_error_narrow_all _ _ _ _ Hc2). do 2 f_equal.
    rewrite (narrowed_int_ladder t1 v (processed_int _ _ Hp1)),
      (narrowed_int_ladder t2 v (processed_int _ _ Hp2)).
    rewrite !(strictly_inside_int_dtype _ t2 t1), Hin.
    repeat match goal with
           | |- context [if ?b then _ else _] => destruct b
           end; reflexivity.
Qed.

(** X5.  What happens to a column is decided by that column alone: the same
    column, at any place of any two tables with distinct labels, whatever
    the other columns, the row index or [verbose], comes back the same. *)
Theorem reduce_dtypes_column_alone
  (index_bytes index_bytes' : Z) (df1 df2 : DataFrame) (verbose verbose' : bool)
  (i j : nat) (l l' : string) (s : Series) :
  NoDup (labels df1) -> NoDup (labels df2) ->
  nth_error (columns df1) i = Some (l, s) ->
  nth_error (columns df2) j = Some (l', s) ->
  exists df1' out1 df2' out2 s',
    reduce_dtypes index_bytes df1 verbose = Some (df1', out1) /\
    reduce_dtypes index_bytes' df2 verbose' = Some (df2', out2) /\
    nth_error (columns df1') i = Some (l, s') /\
    nth_error (columns df2') j = Some (l', s').
Proof.
  intros Hnd1 Hnd2 Hc1 Hc2.
  destruct (reduce_dtypes_all index_bytes df1 verbose Hnd1) as [out1 Hred1].
  destruct (reduce_dtypes_all index_bytes' df2 verbose' Hnd2) as [out2 Hred2].
  exists (mkDataFrame (index_len df1) (narrow_all (columns df1))), out1,
    (mkDataFrame (index_len df2) (narrow_all (columns df2))), out2, (narrowed s).
  split; [exact Hred1|]. split; [exact Hred2|]. cbn [columns]. split.
  - apply (nth_error_narrow_all _ _ _ _ Hc1).
  - apply (nth_error_narrow_all _ _ _ _ Hc2).
Qed.

(* ---------------------------------------------------------------------- *)
(** ** Infinities and missing values in float columns *)

Lemma fmax_keeps_number (a b : spec_float) : isnan a = false -> isnan (fmax a b) = false.
Proof.
  intros Ha. unfold fmax. destruct (SFltb a b) eqn:E; [|exact Ha].
  destruct b; try reflexivity. destruct a; discriminate E.
Qed.

Lemma fmin_keeps_number (a b : spec_float) : isnan a = false -> isnan (fmin a b) = false.
Proof.
  intros Ha. unfold fmin. destruct (SFltb b a) eqn:E; [|exact Ha].
  destruct b; try reflexivity. discriminate E.
Qed.

Lemma fold_fmax_pinf (xs : list spec_float) :
  fold_left fmax xs (S754_infinity false) = S754_infinity false.
Proof.
  induction xs as [|b xs IH]; [reflexivity|]. simpl.
  replace (fmax (S754_infinity false) b) with (S754_infinity false); [exact IH|].
  destruct b as [s|[]| |s m e]; reflexivity.
Qed.

Lemma fold_fmin_ninf (xs : list spec_float) :
  fold_left fmin xs (S754_infinity true) = S754_infinity true.
Proof.
  induction xs as [|b xs IH]; [reflexivity|]. simpl.
  replace (fmin (S754_infinity true) b) with (S754_infinity true); [exact IH|].
  destruct b as [s|[]| |s m e]; reflexivity.
Qed.

Lemma fold_fmax_reaches_pinf (xs : list spec_float) :
  forall a, isnan a = false -> In (S754_infinity false) (a :: xs) ->
            fold_left fmax xs a = S754_infinity false.
Proof.
  induction xs as [|b xs IH]; intros a Ha Hin.
  - destruct Hin as [E|[]]. subst a. reflexivity.
  - simpl. destruct Hin as [E|[E|Hin]].
    + subst a. replace (fmax (S754_infinity false) b) with (S754_infinity false);
        [apply fold_fmax_pinf|].
      destruct b as [s|[]| |s m e]; reflexivity.
    + subst b. replace (fmax a (S754_infinity false)) with (S754_infinity false);
        [apply fold_fmax_pinf|].
      destruct a as [s|[]| |s m e]; try reflexivity. discriminate Ha.
    + apply IH; [apply fmax_keeps_number, Ha | now right].
Qed.

Lemma fold_fmin_reaches_ninf (xs : list spec_float) :
  forall a, isnan a = false -> In (S754_infinity true) (a :: xs) ->
            fold_left fmin xs a = S754_infinity true.
Proof.
  induction xs as [|b xs IH]; intros a Ha Hin.
  - destruct Hin as [E|[]]. subst a. reflexivity.
  - simpl. destruct Hin as [E|[E|Hin]].
    + subst a. replace (fmin (S754_infinity true) b) with (S754_infinity true);
        [apply fold_fmin_ninf|].
      destruct b as [s|[]| |s m e]; reflexivity.
    + subst b. replace (fmin a (S754_infinity true)) with (S754_infinity true);
        [apply fold_fmin_ninf|].
      destruct a as [s|[]| |s m e]; try reflexivity. discriminate Ha.
    + apply IH; [apply fmin_keeps_number, Ha | now right].
Qed.

Lemma dropna_head (v : list spec_float) (x : spec_float) (xs : list spec_float) :
  dropna v = x :: xs -> isnan x = false.
Proof.
  intros H.
  assert (Hin : In x (dropna v)) by (rewrite H; now left).
  unfold dropna in Hin. apply filter_In in Hin. destruct Hin as [_ Hx].
  apply negb_true_iff in Hx. exact Hx.
Qed.

Lemma dropna_all_nan (v : list spec_float) : all_nan v = true -> dropna v = [].
Proof.
  unfold all_nan, dropna. induction v as [|f v IH]; [reflexivity|]. simpl.
  intros H. apply andb_true_iff in H. destruct H as [Hf Hv].
  rewrite Hf. simpl. apply IH, Hv.
Qed.

(** A float column with an infinity or without a number lies strictly
    inside no float type. *)
Lemma strictly_inside_float_no_range (u t : float_dtype) (v : list spec_float) :
  (exists sg, In (S754_infinity sg) v) \/ all_nan v = true ->
  strictly_inside_float u (FloatSeries t v) = false.
Proof.
  intros [[sg Hin]|Hnan].
  - assert (Hd : In (S754_infinity sg) (dropna v)).
    { unfold dropna. apply filter_In. split; [exact Hin | reflexivity]. }
    unfold strictly_inside_float. simpl min. simpl max.
    destruct (dropna v) as [|x xs] eqn:E; [destruct Hd|].
    pose proof (dropna_head v x xs E) as Hx.
    destruct sg.
    + rewrite (fold_fmin_reaches_ninf xs x Hx Hd).
      destruct u; reflexivity.
    + rewrite (fold_fmax_reaches_pinf xs x Hx Hd).
      apply andb_false_iff. right. destruct u; reflexivity.
  - unfold strictly_inside_float. simpl min. simpl max.
    rewrite (dropna_all_nan v Hnan). destruct u; reflexivity.
Qed.

(** X6.  A float column that holds an infinity, or no number at all (every
    cell NaN), is cast to float64 whatever its declared type, so that a
    float16 or float32 column of that kind is widened. *)
Theorem reduce_dtypes_float_no_range
  (index_bytes : Z) (df : DataFrame) (verbose : bool)
  (i : nat) (l : string) (t : float_dtype) (v : list spec_float) :
  NoDup (labels df) ->
  nth_error (columns df) i = Some (l, FloatSeries t v) ->
  (exists sg, In (S754_infinity sg) v) \/ all_nan v = true ->
  exists df' out,
    reduce_dtypes index_bytes df verbose = Some (df', out) /\
    nth_error (columns df') i =
      Some (l, FloatSeries float64 (map (astype_float float64) v)).
Proof.
  intros Hnd Hcol Hv.
  destruct (reduce_dtypes_all index_bytes df verbose Hnd) as [out Hred].
  exists (mkDataFrame (index_len df) (narrow_all (columns df))), out.
  split; [exact Hred|]. cbn [columns].
  rewrite (nth_error_narrow_all _ _ _ _ Hcol), narrowed_float_ladder.
  rewrite !(strictly_inside_float_no_range _ t v Hv). reflexivity.
Qed.

(** Rounding a non-negative mantissa never yields NaN. *)
Lemma binary_round_aux_number (prec emax : Z) (s : bool) (mx ex : Z) (lx : location) :
  0 <= mx -> isnan (binary_round_aux prec emax s mx ex lx) = false.
Proof.
  intros Hm. unfold binary_round_aux.
  destruct (shr_fexp_spec prec emax mx ex lx Hm) as [Q1 _].
  destruct (shr_fexp prec emax mx ex lx) as [mrs1 e1]. simpl fst in Q1.
  assert (H1 : 0 <= shr_m mrs1).
  { rewrite Q1. apply Z.div_pos; [lia|]. apply Z.pow_pos_nonneg; lia. }
  pose proof (round_nearest_even_ge (shr_m mrs1) (loc_of_shr_record mrs1)) as Hr.
  destruct (shr_fexp_spec prec emax
              (round_nearest_even (shr_m mrs1) (loc_of_shr_record mrs1)) e1 loc_Exact)
    as [Q2 _]; [lia|].
  destruct (shr_fexp prec emax _ e1 loc_Exact) as [mrs2 e2]. simpl fst in Q2.
  assert (H2 : 0 <= shr_m mrs2).
  { rewrite Q2. apply Z.div_pos; [lia|]. apply Z.pow_pos_nonneg; lia. }
  destruct (shr_m mrs2) as [|m2|m2]; [reflexivity| |lia].
  destruct (e2 <=? emax - prec); reflexivity.
Qed.

Lemma binary_round_number (prec emax : Z) (s : bool) (m : positive) (e : Z) :
  isnan (binary_round prec emax s m e) = false.
Proof.
  unfold binary_round.
  destruct (shl_align m e (fexp prec emax (Zpos (digits2_pos m) + e))) as [mz ez].
  apply binary_round_aux_number. lia.
Qed.

(** A cast keeps NaN cells and makes no new one. *)
Lemma astype_float_isnan (t : float_dtype) (f : spec_float) :
  isnan (astype_float t f) = isnan f.
Proof.
  destruct f as [s|s| |s m e]; try reflexivity. apply binary_round_number.
Qed.

Lemma isna_narrowed (s : Series) (r : nat) : isna (narrowed s) r = isna s r.
Proof.
  destruct s as [t v|t v|t v].
  - destruct (narrowed_int_values t v) as [t' ->].
    unfold isna, iloc. destruct (nth_error v r); reflexivity.
  - rewrite narrowed_float. unfold isna, iloc. rewrite nth_error_map.
    destruct (nth_error v r) as [f|]; [|reflexivity].
    simpl. apply astype_float_isnan.
  - rewrite narrowed_obj. reflexivity.
Qed.

(** X7.  [reduce_dtypes] keeps the missing values where they are: in every
    column of a table with distinct labels, a row holds the missing-value
    placeholder after the call exactly when it held it before. *)
Theorem reduce_dtypes_keeps_missing
  (index_bytes : Z) (df : DataFrame) (verbose : bool)
  (i : nat) (l : string) (s : Series) :
  NoDup (labels df) ->
  nth_error (columns df) i = Some (l, s) ->
  exists df' out s',
    reduce_dtypes index_bytes df verbose = Some (df', out) /\
    nth_error (columns df') i = Some (l, s') /\
    forall r, isna s' r = isna s r.
Proof.
  intros Hnd Hcol.
  destruct (reduce_dtypes_all index_bytes df verbose Hnd) as [out Hred].
  exists (mkDataFrame (index_len df) (narrow_all (columns df))), out, (narrowed s).
  split; [exact Hred|]. split.
  - cbn [columns]. apply (nth_error_narrow_all _ _ _ _ Hcol).
  - apply isna_narrowed.
Qed.

(* ===================================================================== *)
(** * Further properties of size_of_fmt *)
(* ===================================================================== *)

Lemma append_assoc (a b c : string) :
  String.append (String.append a b) c = String.append a (String.append b c).
Proof. induction a as [|ch a IH]; simpl; [reflexivity | rewrite IH; reflexivity]. Qed.

Lemma append_length (a b : string) :
  String.length (String.append a b) = (String.length a + String.length b)%nat.
Proof. induction a as [|ch a IH]; simpl; [reflexivity | rewrite IH; reflexivity]. Qed.

Lemma append_empty_r (a : string) : String.append a "" = a.
Proof. induction a as [|ch a IH]; simpl; [reflexivity | rewrite IH; reflexivity]. Qed.

Lemma size_of_fmt_units_suffix (us : list string) (suffix : string) :
  forall num,
    size_of_fmt_units us num suffix =
    String.append (size_of_fmt_units us num "") suffix.
Proof.
  induction us as [|u us IH]; intros num; cbn [size_of_fmt_units].
  - rewrite !append_assoc. reflexivity.
  - destruct (SFltb (SFabs num) (f64 1024)); [|apply IH].
    rewrite append_empty_r, !append_assoc. reflexivity.
Qed.

Lemma size_of_fmt_units_suffix_scalar (num : scalar) (suffix : string) :
  size_of_fmt num suffix =
  option_map (fun out => String.append out suffix) (size_of_fmt num "").
Proof.
  unfold size_of_fmt. destruct (py_float num) as [x|]; [|reflexivity].
  cbn [option_map]. f_equal. apply size_of_fmt_units_suffix.
Qed.

(** X8.  The suffix takes no part in the choice of the prefix or in the
    number printed, nor in whether the call raises: the call for a suffix
    returns what the call for the empty suffix returns, followed by the
    suffix, and raises when that one raises. *)
Theorem size_of_fmt_suffix_appended (num : scalar) (suffix : string) :
  size_of_fmt num suffix =
  option_map (fun out => String.append out suffix) (size_of_fmt num "").
Proof. apply size_of_fmt_units_suffix_scalar. Qed.

(** The integers of magnitude below 1024, checked one by one. *)
Lemma size_of_fmt_small_check :
  forallb (fun k =>
             match size_of_fmt (PyInt (Z.of_nat k)) "",
                   size_of_fmt (PyInt (- Z.of_nat (S k))) ""
             with
             | Some a, Some b =>
                 String.eqb a (String.append (Fmt.string_of_nonneg (Z.of_nat k)) ".0")
                 && String.eqb b
                      (String.append "-"
                         (String.append (Fmt.string_of_nonneg (Z.of_nat (S k))) ".0"))
             | _, _ => false
             end)
          (seq 0 1023)
  = true /\
  size_of_fmt (PyInt 1023) "" = Some "1023.0".
Proof. vm_compute. split; reflexivity. Qed.

(** X9.  An integer byte count of magnitude below 1024 is printed as it is,
    with one decimal 0, no prefix, and the suffix. *)
Theorem size_of_fmt_below_1024 (n : Z) (suffix : string) :
  -1024 < n < 1024 ->
  size_of_fmt (PyInt n) suffix =
  Some (String.append (if n <? 0 then "-" else "")
          (String.append (Fmt.string_of_nonneg (Z.abs n)) (String.append ".0" suffix))).
Proof.
  intros Hn. rewrite size_of_fmt_units_suffix_scalar.
  destruct size_of_fmt_small_check as [Hall H1023].
  rewrite forallb_forall in Hall.
  destruct (Z.ltb_spec n 0) as [Hneg|Hpos].
  - specialize (Hall (Z.to_nat (- n - 1))).
    rewrite Nat2Z.inj_succ, Z2Nat.id in Hall by lia.
    replace (- Z.succ (- n - 1)) with n in Hall by lia.
    replace (Z.succ (- n - 1)) with (Z.abs n) in Hall by lia.
    specialize (Hall ltac:(apply in_seq; lia)).
    destruct (size_of_fmt (PyInt (- n - 1)) ""); [|discriminate Hall].
    destruct (size_of_fmt (PyInt n) "") as [b|]; [|discriminate Hall].
    destruct (andb_prop _ _ Hall) as [_ E].
    apply String.eqb_eq in E. rewrite E. simpl option_map.
    rewrite !append_assoc. reflexivity.
  - destruct (Z.eq_dec n 1023) as [->|Hne].
    + rewrite H1023. reflexivity.
    + specialize (Hall (Z.to_nat n)).
      rewrite Z2Nat.id in Hall by lia.
      specialize (Hall ltac:(apply in_seq; lia)).
      destruct (size_of_fmt (PyInt n) "") as [a|]; [|discriminate Hall].
      destruct (size_of_fmt (PyInt (- Z.of_nat (S (Z.to_nat n)))) "");
        [|discriminate Hall].
      destruct (andb_prop _ _ Hall) as [E _].
      apply String.eqb_eq in E. rewrite E. simpl option_map.
      rewrite Z.abs_eq by lia. rewrite !append_assoc. reflexivity.
Qed.

(* ---------------------------------------------------------------------- *)
(** ** Negative sizes *)

Lemma binary_round_aux_opp (prec emax : Z) (s : bool) (mx ex : Z) (lx : location) :
  binary_round_aux prec emax (negb s) mx ex lx =
  SFopp (binary_round_aux prec emax s mx ex lx).
Proof.
  unfold binary_round_aux.
  destruct (shr_fexp prec emax mx ex lx) as [mrs1 e1].
  destruct (shr_fexp prec emax _ e1 loc_Exact) as [mrs2 e2].
  destruct (shr_m mrs2); try reflexivity.
  destruct (e2 <=? emax - prec); reflexivity.
Qed.

Lemma binary_round_opp (prec emax : Z) (s : bool) (m : positive) (e : Z) :
  binary_round prec emax (negb s) m e = SFopp (binary_round prec emax s m e).
Proof.
  unfold binary_round.
  destruct (shl_align m e (fexp prec emax (Zpos (digits2_pos m) + e))) as [mz ez].
  apply binary_round_aux_opp.
Qed.

Lemma binary_round_aux_abs (prec emax : Z) (mx ex : Z) (lx : location) :
  SFabs (binary_round_aux prec emax false mx ex lx) =
  binary_round_aux prec emax false mx ex lx.
Proof.
  unfold binary_round_aux.
  destruct (shr_fexp prec emax mx ex lx) as [mrs1 e1].
  destruct (shr_fexp prec emax _ e1 loc_Exact) as [mrs2 e2].
  destruct (shr_m mrs2); try reflexivity.
  destruct (e2 <=? emax - prec); reflexivity.
Qed.

Lemma f64_1024 : f64 1024 = S754_finite false 4503599627370496 (-42).
Proof. reflexivity. Qed.

Lemma fdiv_1024_opp (x : spec_float) :
  fdiv (SFopp x) (f64 1024) = SFopp (fdiv x (f64 1024)).
Proof.
  rewrite f64_1024. unfold fdiv.
  destruct x as [s|s| |s m e]; try (destruct s; reflexivity); try reflexivity.
  unfold SFopp at 1. unfold SFdiv.
  destruct (SFdiv_core_binary 53 1024 (Zpos m) e (Zpos 4503599627370496) (-42))
    as [[mz ez] lz].
  rewrite !xorb_false_r. apply binary_round_aux_opp.
Qed.

Lemma SFdiv_core_nonneg (prec emax : Z) (m1 : positive) (e1 : Z) (m2 : positive) (e2 : Z) :
  0 <= fst (fst (SFdiv_core_binary prec emax (Zpos m1) e1 (Zpos m2) e2)).
Proof.
  unfold SFdiv_core_binary.
  set (sh := e1 - e2 - _).
  set (m' := match sh with Zpos _ => Z.shiftl (Zpos m1) sh | Z0 => Zpos m1 | Zneg _ => 0 end).
  assert (Hm' : 0 <= m').
  { unfold m'. destruct sh; try lia. apply Z.shiftl_nonneg. lia. }
  pose proof (Z_div_mod m' (Zpos m2) ltac:(lia)) as H.
  destruct (Z.div_eucl m' (Zpos m2)) as [q r]. simpl. nia.
Qed.

(** A non-negative number divided by 1024.0 is a non-negative number. *)
Lemma fdiv_1024_nonneg (x : spec_float) :
  SFabs x = x -> isnan x = false ->
  SFabs (fdiv x (f64 1024)) = fdiv x (f64 1024) /\ isnan (fdiv x (f64 1024)) = false.
Proof.
  rewrite f64_1024. unfold fdiv. intros Ha Hn.
  destruct x as [s|s| |s m e]; try discriminate Hn; simpl in Ha.
  - injection Ha as <-. split; reflexivity.
  - injection Ha as <-. split; reflexivity.
  - injection Ha as <-.
  unfold SFdiv.
  pose proof (SFdiv_core_nonneg 53 1024 m e 4503599627370496 (-42)) as Hq.
  destruct (SFdiv_core_binary 53 1024 (Zpos m) e (Zpos 4503599627370496) (-42))
    as [[mz ez] lz]. simpl in Hq. simpl xorb. split.
  + apply binary_round_aux_abs.
  + apply binary_round_aux_number, Hq.
Qed.

Lemma SFabs_opp (x : spec_float) : SFabs (SFopp x) = SFabs x.
Proof. destruct x; reflexivity. Qed.

Lemma string_of_nonneg_length (n : Z) : (1 <= String.length (Fmt.string_of_nonneg n))%nat.
Proof.
  unfold Fmt.string_of_nonneg, NilZero.string_of_uint.
  destruct (N.to_uint (Z.to_N n)); simpl; lia.
Qed.

Lemma rjust_long (w : nat) (c s : string) :
  (w <= String.length s)%nat -> Fmt.rjust w c s = s.
Proof.
  intros H. unfold Fmt.rjust.
  replace (w - String.length s)%nat with O by lia. reflexivity.
Qed.

Lemma fixed_digits_length (m e : Z) : (3 <= String.length (Fmt.fixed_digits 1 m e))%nat.
Proof.
  unfold Fmt.fixed_digits. cbv zeta. rewrite !append_length.
  pose proof (string_of_nonneg_length
                ((if 0 <=? e then m * 2 ^ e * 10 ^ Z.of_nat 1
                  else Fmt.round_half_even (m * 10 ^ Z.of_nat 1) (2 ^ (- e)))
                 / 10 ^ Z.of_nat 1)) as H1.
  pose proof (string_of_nonneg_length
                ((if 0 <=? e then m * 2 ^ e * 10 ^ Z.of_nat 1
                  else Fmt.round_half_even (m * 10 ^ Z.of_nat 1) (2 ^ (- e)))
                 mod 10 ^ Z.of_nat 1)) as H2.
  unfold Fmt.rjust. rewrite append_length. simpl String.length at 2. lia.
Qed.

(** The format of the opposite of a non-negative number is a minus sign and
    the format of the number. *)
Lemma format_f_opp (w : nat) (x : spec_float) :
  (w <= 3)%nat -> SFabs x = x -> isnan x = false ->
  Fmt.format_f w 1 (SFopp x) = String.append "-" (Fmt.format_f w 1 x).
Proof.
  intros Hw Ha Hn. unfold Fmt.format_f.
  destruct x as [s|s| |s m e]; try discriminate Hn;
    simpl in Ha; injection Ha as <-; cbn [SFopp negb Fmt.sign_string].
  - pose proof (fixed_digits_length 0 0) as L.
    rewrite (rjust_long w " " (String.append "-" _)), (rjust_long w " " (String.append "" _));
      [reflexivity | |]; rewrite append_length;
      change (String.length "-") with 1%nat; change (String.length "") with O;
      try change (String.length "inf") with 3%nat; lia.
  - rewrite (rjust_long w " " (String.append "-" _)), (rjust_long w " " (String.append "" _));
      [reflexivity | |]; rewrite append_length;
      change (String.length "-") with 1%nat; change (String.length "") with O;
      try change (String.length "inf") with 3%nat; lia.
  - pose proof (fixed_digits_length (Zpos m) e) as L.
    rewrite (rjust_long w " " (String.append "-" _)), (rjust_long w " " (String.append "" _));
      [reflexivity | |]; rewrite append_length;
      change (String.length "-") with 1%nat; change (String.length "") with O;
      try change (String.length "inf") with 3%nat; lia.
Qed.

Lemma size_of_fmt_units_opp (us : list string) (suffix : string) :
  forall x, SFabs x = x -> isnan x = false ->
            size_of_fmt_units us (SFopp x) suffix =
            String.append "-" (size_of_fmt_units us x suffix).
Proof.
  induction us as [|u us IH]; intros x Ha Hn; cbn [size_of_fmt_units].
  - rewrite (format_f_opp 0 x) by (assumption || lia). reflexivity.
  - rewrite SFabs_opp. destruct (SFltb (SFabs x) (f64 1024)).
    + rewrite (format_f_opp 3 x) by (assumption || lia). reflexivity.
    + rewrite fdiv_1024_opp. destruct (fdiv_1024_nonneg x Ha Hn) as [Ha' Hn'].
      apply IH; assumption.
Qed.

(** X10.  A negative integer size is printed as a minus sign followed by
    what is printed for its magnitude: the prefix is chosen on [abs(num)]
    and the division keeps the sign.  The call raises for the one exactly
    when it raises for the other. *)
Theorem size_of_fmt_negative (z : Z) (suffix : string) :
  0 < z ->
  size_of_fmt (PyInt (- z)) suffix =
  option_map (String.append "-") (size_of_fmt (PyInt z) suffix).
Proof.
  intros Hz. destruct z as [|p|p]; try lia.
  unfold size_of_fmt, py_float. cbn [Z.opp].
  unfold float_of_Z, binary_normalize.
  change (binary_round (prec float64) (emax float64) true p 0)
    with (binary_round (prec float64) (emax float64) (negb false) p 0).
  rewrite binary_round_opp.
  assert (Ha : SFabs (binary_round (prec float64) (emax float64) false p 0) =
               binary_round (prec float64) (emax float64) false p 0).
  { unfold binary_round. destruct (shl_align p 0 _) as [mz ez].
    apply binary_round_aux_abs. }
  pose proof (binary_round_number (prec float64) (emax float64) false p 0) as Hn.
  destruct (binary_round (prec float64) (emax float64) false p 0) as [s|s| |s m e] eqn:E;
    try discriminate Hn.
  - cbn [SFopp option_map]. f_equal.
    apply (size_of_fmt_units_opp units suffix (S754_zero s) Ha Hn).
  - reflexivity.
  - cbn [SFopp option_map]. f_equal.
    apply (size_of_fmt_units_opp units suffix (S754_finite s m e) Ha Hn).
Qed.

(* ===================================================================== *)
(** * Further properties of merge_by_concat *)
(* ===================================================================== *)




Lemma flat_map_length_sum {A B} (f : A -> list B) (l : list A) :
  List.length (flat_map f l) = list_sum (map (fun x => List.length (f x)) l).
Proof.
  induction l as [|x l IH]; [reflexivity|].
  simpl. rewrite length_app, IH. reflexivity.
Qed.

Lemma left_join_rows_length (ks ks' : list Series) (nleft nright : nat) :
  List.length (left_join_rows ks ks' nleft nright) =
  list_sum (map (fun i => Nat.max 1 (List.length (matches ks ks' nright i)))
                (seq 0 nleft)).
Proof.
  unfold left_join_rows. rewrite flat_map_length_sum. f_equal.
  apply map_ext. intros i.
  destruct (matches ks ks' nright i) as [|j js]; [reflexivity|].
  rewrite length_map. simpl. lia.
Qed.

Lemma sum_at_least_one (g : nat -> nat) (l : list nat) :
  (forall i, (1 <= g i)%nat) ->
  (List.length l <= list_sum (map g l))%nat /\
  (list_sum (map g l) = List.length l <-> forall i, In i l -> g i = 1%nat).
Proof.
  intros Hg. induction l as [|x l [IH1 IH2]]; simpl.
  - split; [lia|]. split; [intros _ i []|reflexivity].
  - pose proof (Hg x) as Hx. split; [lia|]. split.
    + intros H i [<-|Hi]; [lia|]. apply IH2; [lia|exact Hi].
    + intros H. rewrite (H x (or_introl eq_refl)).
      assert (E : list_sum (map g l) = List.length l).
      { apply IH2. intros i Hi. apply H. now right. }
      lia.
Qed.

(** X12.  For tables on the default positional index, with the keys in
    order and key columns that pass the dtype check of the merge, which
    joins the rows on [cks] and [cks']: the result of [merge_by_concat] has
    one row for every pair of a primary row and a secondary row it joins,
    and one for every primary row that joins none.  It never has fewer rows
    than the primary table, and it has as many exactly when no primary row
    joins two secondary rows. *)
Theorem merge_by_concat_row_count (other_keys : key_rule)
  (df1 df2 : DataFrame) (merge_on : list string) (ks ks' cks cks' : list Series) :
  merge_on <> [] ->
  NoDup merge_on ->
  NoDup (labels df2) ->
  getitems df1 merge_on = Some ks ->
  getitems df2 merge_on = Some ks' ->
  coerce_merge_keys other_keys ks ks' = Some (cks, cks') ->
  exists r,
    merge_by_concat other_keys df1 df2 merge_on = Some r /\
    index_len r =
      list_sum (map (fun i => Nat.max 1 (List.length (matches cks cks' (index_len df2) i)))
                    (seq 0 (index_len df1))) /\
    (index_len df1 <= index_len r)%nat /\
    (index_len r = index_len df1 <->
     forall i, (i < index_len df1)%nat ->
               (List.length (matches cks cks' (index_len df2) i) <= 1)%nat).
Proof.
  intros Hne Hnd Hnd2 Hks Hks' Hck.
  rewrite (merge_by_concat_eq other_keys _ _ _ _ _ _ _ Hne Hnd Hnd2 Hks Hks' Hck).
  cbv zeta.
  eexists. split; [reflexivity|].
  set (g := fun i => Nat.max 1 (List.length (matches cks cks' (index_len df2) i))).
  destruct (sum_at_least_one g (seq 0 (index_len df1))) as [Hge Hiff];
    [intros i; unfold g; lia|].
  rewrite length_seq in Hge, Hiff.
  assert (Hn : index_len
                 (concat_axis1 df1
                    (mkDataFrame
                       (List.length (left_join_rows cks cks' (index_len df1) (index_len df2)))
                       (map (fun c => (fst c,
                                       take_missing (snd c)
                                         (map snd (left_join_rows cks cks' (index_len df1)
                                                     (index_len df2)))))
                            (filter (fun c => negb (str_in (fst c) merge_on)) (columns df2)))))
               = list_sum (map g (seq 0 (index_len df1)))).
  { unfold concat_axis1. cbn [index_len]. rewrite left_join_rows_length. fold g.
    destruct (Nat.eqb_spec (index_len df1) (list_sum (map g (seq 0 (index_len df1)))))
      as [E|E]; cbn [index_len]; lia. }
  rewrite Hn. split; [reflexivity|]. split; [exact Hge|].
  rewrite Hiff. split.
  - intros H i Hi. specialize (H i ltac:(apply in_seq; lia)). unfold g in H. lia.
  - intros H i Hi. apply in_seq in Hi. specialize (H i ltac:(lia)). unfold g. lia.
Qed.

Lemma take_dtypes (s : Series) (js : list nat) : dtypes (take s js) = dtypes s.
Proof. destruct s; reflexivity. Qed.

Lemma take_len (s : Series) (js : list nat) : len (take s js) = List.length js.
Proof. destruct s; simpl; apply length_map. Qed.

Lemma iloc_take (s : Series) (js : list nat) (i j : nat) :
  nth_error js i = Some j -> (j < len s)%nat -> iloc (take s js) i = iloc s j.
Proof.
  intros Hi Hj. destruct s as [t v|t v|t v]; simpl in *;
    rewrite nth_error_map, Hi; simpl.
  - rewrite (nth_error_nth' v 0 Hj). reflexivity.
  - rewrite (nth_error_nth' v nan Hj). reflexivity.
  - rewrite (nth_error_nth' v None Hj). reflexivity.
Qed.

Lemma matches_lt (ks ks' : list Series) (nright i j : nat) :
  In j (matches ks ks' nright i) -> (j < nright)%nat.
Proof.
  unfold matches. intros H. apply filter_In in H. destruct H as [H _].
  apply in_seq in H. lia.
Qed.

Lemma Forall2_map_self {A B} (R : B -> A -> Prop) (f : A -> B) (l : list A) :
  (forall x, In x l -> R (f x) x) -> Forall2 R (map f l) l.
Proof.
  induction l as [|x l IH]; intros H; simpl; constructor.
  - apply H. now left.
  - apply IH. intros y Hy. apply H. now right.
Qed.

Lemma all_some_hd (ks ks' : list Series) (nright : nat) (rows : list nat) :
  (forall i, In i rows -> List.length (matches ks ks' nright i) = 1%nat) ->
  all_some (map (fun i => hd_error (matches ks ks' nright i)) rows) = true.
Proof.
  intros H. unfold all_some. apply forallb_forall. intros o Ho.
  apply in_map_iff in Ho. destruct Ho as [i [<- Hi]].
  specialize (H i Hi). destruct (matches ks ks' nright i); [discriminate H|reflexivity].
Qed.

(** X13.  For tables on the default positional index, with the keys in
    order, key columns that pass the dtype check of the merge, which joins
    the rows on [cks] and [cks'], and a secondary table whose columns have
    its row count: when every primary row joins exactly one secondary row,
    the columns added by [merge_by_concat] are the non-key columns of the
    secondary table under their labels and declared types, and row [i] of
    each holds the cell of the secondary row that primary row [i] joins. *)
Theorem merge_by_concat_full_match (other_keys : key_rule)
  (df1 df2 : DataFrame) (merge_on : list string) (ks ks' cks cks' : list Series) :
  merge_on <> [] ->
  NoDup merge_on ->
  NoDup (labels df2) ->
  getitems df1 merge_on = Some ks ->
  getitems df2 merge_on = Some ks' ->
  coerce_merge_keys other_keys ks ks' = Some (cks, cks') ->
  (forall c, In c (columns df2) -> len (snd c) = index_len df2) ->
  (forall i, (i < index_len df1)%nat ->
             List.length (matches cks cks' (index_len df2) i) = 1%nat) ->
  exists r new,
    merge_by_concat other_keys df1 df2 merge_on = Some r /\
    index_len r = index_len df1 /\
    columns r = columns df1 ++ new /\
    Forall2 (fun c' c =>
               fst c' = fst c /\
               dtypes (snd c') = dtypes (snd c) /\
               len (snd c') = index_len df1 /\
               forall i j, (i < index_len df1)%nat ->
                           matches cks cks' (index_len df2) i = [j] ->
                           iloc (snd c') i = iloc (snd c) j)
            new
            (filter (fun c => negb (str_in (fst c) merge_on)) (columns df2)).
Proof.
  intros Hne Hnd Hnd2 Hks Hks' Hck Hlen Hone.
  rewrite (merge_by_concat_eq other_keys _ _ _ _ _ _ _ Hne Hnd Hnd2 Hks Hks' Hck).
  cbv zeta.
  assert (Hrows : left_join_rows cks cks' (index_len df1) (index_len df2) =
                  map (fun i => (i, hd_error (matches cks cks' (index_len df2) i)))
                      (seq 0 (index_len df1))).
  { unfold left_join_rows. apply left_join_rows_single.
    intros i Hi. apply in_seq in Hi. rewrite Hone; lia. }
  rewrite Hrows, length_map, length_seq, map_map. cbn [snd].
  unfold concat_axis1. cbn [index_len columns]. rewrite Nat.eqb_refl.
  eexists. eexists. split; [reflexivity|]. split; [reflexivity|].
  split; [reflexivity|].
  apply Forall2_map_self. intros [l s] Hin. cbn [fst snd].
  apply filter_In in Hin. destruct Hin as [Hin _].
  unfold take_missing. rewrite all_some_hd
    by (intros i Hi; apply in_seq in Hi; apply Hone; lia).
  split; [reflexivity|]. split; [apply take_dtypes|]. split.
  - rewrite take_len, !length_map, length_seq. reflexivity.
  - intros i j Hi Hj. apply iloc_take.
    + rewrite map_map, nth_error_map.
      rewrite (nth_error_nth' _ O) by (rewrite length_seq; exact Hi).
      rewrite seq_nth by exact Hi. cbn [option_map Nat.add]. rewrite Hj. reflexivity.
    + pose proof (Hlen _ Hin) as Hl. cbn [snd] in Hl. rewrite Hl.
      apply (matches_lt cks cks' _ i). rewrite Hj. now left.
Qed.

(** X14.  For tables on the default positional index, with the keys in
    order, key columns that pass the dtype check of the merge, which joins
    the rows on [cks] and [cks'], and no primary row joining two secondary
    rows: as soon as one primary row joins no secondary row, every integer
    non-key column of the secondary table arrives as a float64 column with
    NaN in that row, so its declared type is not kept. *)
Theorem merge_by_concat_unmatched_upcasts (other_keys : key_rule)
  (df1 df2 : DataFrame) (merge_on : list string) (ks ks' cks cks' : list Series)
  (i0 : nat) :
  merge_on <> [] ->
  NoDup merge_on ->
  NoDup (labels df2) ->
  getitems df1 merge_on = Some ks ->
  getitems df2 merge_on = Some ks' ->
  coerce_merge_keys other_keys ks ks' = Some (cks, cks') ->
  (forall i, (i < index_len df1)%nat ->
             (List.length (matches cks cks' (index_len df2) i) <= 1)%nat) ->
  (i0 < index_len df1)%nat ->
  matches cks cks' (index_len df2) i0 = [] ->
  exists r new,
    merge_by_concat other_keys df1 df2 merge_on = Some r /\
    columns r = columns df1 ++ new /\
    forall l t v,
      In (l, IntSeries t v) (columns df2) ->
      str_in l merge_on = false ->
      exists w, In (l, FloatSeries float64 w) new /\
                List.length w = index_len df1 /\
                nth_error w i0 = Some nan.
Proof.
  intros Hne Hnd Hnd2 Hks Hks' Hck Hone Hi0 Hnone.
  rewrite (merge_by_concat_eq other_keys _ _ _ _ _ _ _ Hne Hnd Hnd2 Hks Hks' Hck).
  cbv zeta.
  assert (Hrows : left_join_rows cks cks' (index_len df1) (index_len df2) =
                  map (fun i => (i, hd_error (matches cks cks' (index_len df2) i)))
                      (seq 0 (index_len df1))).
  { unfold left_join_rows. apply left_join_rows_single.
    intros i Hi. apply in_seq in Hi. apply Hone. lia. }
  rewrite Hrows, length_map, length_seq, map_map. cbn [snd].
  unfold concat_axis1. cbn [index_len columns]. rewrite Nat.eqb_refl.
  eexists. eexists. split; [reflexivity|]. split; [reflexivity|].
  intros l t v Hin Hkey.
  set (rows2 := map (fun i => hd_error (matches cks cks' (index_len df2) i))
                    (seq 0 (index_len df1))).
  assert (Hrow : nth_error rows2 i0 = Some None).
  { unfold rows2. rewrite nth_error_map.
    rewrite (nth_error_nth' _ O) by (rewrite length_seq; exact Hi0).
    rewrite seq_nth by exact Hi0. cbn [option_map Nat.add]. rewrite Hnone. reflexivity. }
  exists (map (fun o => match o with
                        | Some i => float_of_Z float64 (nth i v 0)
                        | None => nan
                        end) rows2).
  split; [|split].
  - apply in_map_iff. exists (l, IntSeries t v). split.
    + cbn [fst snd]. unfold take_missing. fold rows2.
      rewrite (all_some_false rows2 i0 Hrow). reflexivity.
    + apply filter_In. split; [exact Hin|]. cbn [fst]. rewrite Hkey. reflexivity.
  - unfold rows2. rewrite !length_map, length_seq. reflexivity.
  - rewrite nth_error_map, Hrow. reflexivity.
Qed.

(* ---------------------------------------------------------------------- *)
(** ** The dtype check of the keys *)

Lemma coerce_merge_key_joinable (other_keys : key_rule) (lk rk : Series) :
  joinable lk rk = true -> coerce_merge_key other_keys lk rk = Some (lk, rk).
Proof.
  unfold joinable, coerce_merge_key, hash_keys. intros H.
  apply andb_prop in H. destruct H as [H Hf].
  apply negb_true_iff in Hf. rewrite Hf.
  destruct (xorb _ _); [reflexivity|].
  destruct (dtype_eqb _ _); [reflexivity|].
  cbn [orb] in H. rewrite H. reflexivity.
Qed.

Lemma coerce_merge_keys_joinable (other_keys : key_rule) (ks ks' : list Series) :
  Forall2 (fun lk rk => joinable lk rk = true) ks ks' ->
  coerce_merge_keys other_keys ks ks' = Some (ks, ks').
Proof.
  induction 1 as [|lk rk ks ks' H _ IH]; [reflexivity|].
  cbn [coerce_merge_keys].
  rewrite (coerce_merge_key_joinable other_keys lk rk H), IH. reflexivity.
Qed.

(** X17.  For tables on the default positional index, with the keys in
    order: when every key has the same dtype in both tables, or an integer
    or float dtype in both, and no key column is a float16 column,
    [merge_by_concat] returns, whatever is done with the other pairs of key
    columns, and its result is the primary table side by side with the
    non-key columns of the secondary table, gathered along the left join
    of the key columns themselves. *)
Theorem merge_by_concat_same_dtypes (other_keys : key_rule)
  (df1 df2 : DataFrame) (merge_on : list string) (ks ks' : list Series) :
  merge_on <> [] ->
  NoDup merge_on ->
  NoDup (labels df2) ->
  getitems df1 merge_on = Some ks ->
  getitems df2 merge_on = Some ks' ->
  Forall2 (fun lk rk => joinable lk rk = true) ks ks' ->
  merge_by_concat other_keys df1 df2 merge_on =
  Some (concat_axis1 df1
          (mkDataFrame
             (List.length (left_join_rows ks ks' (index_len df1) (index_len df2)))
             (map (fun c => (fst c,
                             take_missing (snd c)
                               (map snd (left_join_rows ks ks' (index_len df1)
                                           (index_len df2)))))
                  (filter (fun c => negb (str_in (fst c) merge_on)) (columns df2))))).
Proof.
  intros Hne Hnd Hnd2 Hks Hks' Hj.
  apply (merge_by_concat_eq other_keys df1 df2 merge_on ks ks' ks ks'
           Hne Hnd Hnd2 Hks Hks').
  apply coerce_merge_keys_joinable, Hj.
Qed.

(** A datetime key column against a key column of another dtype, both with
    rows, fails the check. *)
Lemma coerce_merge_key_datetime (other_keys : key_rule) (lk rk : Series) :
  len lk <> O -> len rk <> O ->
  is_datetime (dtypes lk) <> is_datetime (dtypes rk) ->
  coerce_merge_key other_keys lk rk = None.
Proof.
  intros Hl Hr Hdt. unfold coerce_merge_key.
  apply Nat.eqb_neq in Hl. apply Nat.eqb_neq in Hr. rewrite Hl, Hr. cbn [xorb].
  destruct (dtypes lk) as [[]|[]|[]], (dtypes rk) as [[]|[]|[]];
    try reflexivity; exfalso; apply Hdt; reflexivity.
Qed.

(** One failing pair of key columns makes the check of the keys fail. *)
Lemma coerce_merge_keys_fail (other_keys : key_rule) (df1 df2 : DataFrame)
  (k : string) (lk rk : Series) (on : list string) :
  forall ks ks',
    getitems df1 on = Some ks ->
    getitems df2 on = Some ks' ->
    In k on ->
    getitem df1 k = Some lk ->
    getitem df2 k = Some rk ->
    coerce_merge_key other_keys lk rk = None ->
    coerce_merge_keys other_keys ks ks' = None.
Proof.
  induction on as [|col rest IH]; intros ks ks' Hks Hks' Hin Hl Hr Hfail;
    [contradiction|].
  cbn [getitems] in Hks, Hks'.
  destruct (getitem df1 col) as [s|] eqn:Hs; [|discriminate].
  destruct (getitems df1 rest) as [more|] eqn:Hm; [|discriminate].
  destruct (getitem df2 col) as [s'|] eqn:Hs'; [|discriminate].
  destruct (getitems df2 rest) as [more'|] eqn:Hm'; [|discriminate].
  injection Hks as <-. injection Hks' as <-. cbn [coerce_merge_keys].
  destruct (String.eqb_spec col k) as [E|E].
  - subst col. rewrite Hl in Hs. rewrite Hr in Hs'.
    injection Hs as <-. injection Hs' as <-. rewrite Hfail. reflexivity.
  - destruct Hin as [Hin|Hin]; [contradiction|].
    rewrite (IH more more' eq_refl eq_refl Hin Hl Hr Hfail).
    destruct (coerce_merge_key other_keys s s') as [[a b]|]; reflexivity.
Qed.

(** A key that names several columns of a table names several columns of
    the table of its key columns. *)
Lemma getitems_select_none (df : DataFrame) (n : nat) (on : list string) :
  forall cs' pre,
    getitems df on = None ->
    select (columns df) on = Some cs' ->
    getitems (mkDataFrame n (pre ++ cs')) on = None.
Proof.
  induction on as [|col rest IH]; intros cs' pre Hg Hsel; [discriminate Hg|].
  cbn [getitems select] in Hg, Hsel |- *.
  destruct (filter (fun c => String.eqb (fst c) col) (columns df)) as [|a found] eqn:Hf;
    [discriminate Hsel|].
  destruct (select (columns df) rest) as [more|] eqn:Hmore; [|discriminate Hsel].
  injection Hsel as <-.
  assert (Hff : filter (fun c : string * Series => String.eqb (fst c) col) (a :: found)
                = a :: found).
  { rewrite <- Hf. apply filter_idem. }
  destruct (getitem df col) as [s|] eqn:Hs.
  - destruct (getitems df rest) as [ks|] eqn:Hrest; [discriminate Hg|].
    replace (pre ++ a :: found ++ more) with ((pre ++ a :: found) ++ more)
      by (rewrite <- app_assoc; reflexivity).
    rewrite (IH more (pre ++ a :: found) eq_refl eq_refl).
    destruct (getitem (mkDataFrame n _) col); reflexivity.
  - assert (E : getitem (mkDataFrame n (pre ++ a :: found ++ more)) col = None).
    { unfold getitem in Hs |- *. cbn [columns]. rewrite Hf in Hs.
      change (a :: found ++ more) with ((a :: found) ++ more).
      rewrite !filter_label_app, Hff.
      destruct found as [|b found]; [discriminate Hs|].
      destruct (filter (fun c => String.eqb (fst c) col) pre) as [|p [|q pre']];
        reflexivity. }
    rewrite E. reflexivity.
Qed.

(** X18.  A join key that names a datetime column in one table and a
    column of another dtype in the other, both columns with rows, makes
    [merge_by_concat] raise. *)
Theorem merge_by_concat_datetime_key (other_keys : key_rule)
  (df1 df2 : DataFrame) (merge_on : list string) (k : string) (lk rk : Series) :
  In k merge_on ->
  getitem df1 k = Some lk ->
  getitem df2 k = Some rk ->
  len lk <> O -> len rk <> O ->
  is_datetime (dtypes lk) <> is_datetime (dtypes rk) ->
  merge_by_concat other_keys df1 df2 merge_on = None.
Proof.
  intros Hin Hl Hr Hnl Hnr Hdt.
  pose proof (coerce_merge_key_datetime other_keys lk rk Hnl Hnr Hdt) as Hfail.
  unfold merge_by_concat, getitem_list.
  destruct (select (columns df1) merge_on) as [cs|] eqn:Hsel; [|reflexivity].
  cbn [option_map].
  replace (merge_left other_keys (mkDataFrame (index_len df1) cs) df2 merge_on)
    with (@None DataFrame); [reflexivity|].
  symmetry. unfold merge_left.
  destruct merge_on as [|c rest]; [destruct Hin|]. cbv beta iota.
  set (on := c :: rest) in *.
  destruct (nodupb on) eqn:Hnd; [|reflexivity].
  destruct (getitems df1 on) as [ks|] eqn:Hks.
  - pose proof (select_getitems _ _ _ Hks) as Hsel'.
    rewrite Hsel in Hsel'. injection Hsel' as ->.
    rewrite (getitems_combine _ _ _ (NoDup_nodupb _ Hnd) (getitems_length _ _ _ Hks)).
    destruct (getitems df2 on) as [ks'|] eqn:Hks'; [|reflexivity].
    rewrite (coerce_merge_keys_fail other_keys df1 df2 k lk rk on ks ks'
               Hks Hks' Hin Hl Hr Hfail).
    reflexivity.
  - pose proof (getitems_select_none df1 (index_len df1) on cs [] Hks Hsel) as E.
    cbn [app] in E. rewrite E. reflexivity.
Qed.

(* ===================================================================== *)
(** * The further properties at concrete tables *)
(* ===================================================================== *)

Lemma reduce_dtypes_never_widens_inside_mixed :
  exists df' out s',
    reduce_dtypes 128 mixed_table false = Some (df', out) /\
    nth_error (columns df') 0 = Some ("a", s') /\
    itemsize (dtypes s') <= itemsize (dtypes (IntSeries int64 [1; 127; -128])) /\
    nbytes s' <= nbytes (IntSeries int64 [1; 127; -128]).
Proof.
  apply (reduce_dtypes_never_widens_inside 128 mixed_table false 0 "a"
           (IntSeries int64 [1; 127; -128])).
  - distinct_labels.
  - reflexivity.
  - reflexivity.
Defined.

Lemma reduce_dtypes_memory_not_larger_reordered :
  exists df' out,
    reduce_dtypes 128 mixed_table_reordered false = Some (df', out) /\
    memory_usage_sum 128 df' <= memory_usage_sum 128 mixed_table_reordered.
Proof.
  apply (reduce_dtypes_memory_not_larger 128 mixed_table_reordered false).
  - distinct_labels.
  - intros l s Hin. simpl in Hin.
    repeat (destruct Hin as [Hin|Hin]; [injection Hin as _ <-; reflexivity|]).
    contradiction.
Defined.

Lemma reduce_dtypes_widens_int16_max :
  exists df' out,
    reduce_dtypes 128 table_int16_max false = Some (df', out) /\
    nth_error (columns df') 0 = Some ("k", IntSeries (next_int int16) [5; 32767]) /\
    itemsize (DInt (next_int int16)) = 2 * itemsize (DInt int16).
Proof.
  apply (reduce_dtypes_widens_at_own_bound 128 table_int16_max false 0 "k" int16 [5; 32767]).
  - distinct_labels.
  - reflexivity.
  - left. reflexivity.
  - intros z Hz. change (iinfo_min int16) with (-32768).
    change (iinfo_max int16) with 32767. simpl in Hz. lia.
  - left. simpl. auto.
Defined.

Lemma reduce_dtypes_int_type_irrelevant_mixed :
  exists df1' out1 df2' out2 c,
    reduce_dtypes 128 mixed_table false = Some (df1', out1) /\
    reduce_dtypes 128 mixed_table_reordered false = Some (df2', out2) /\
    nth_error (columns df1') 0 = Some c /\
    nth_error (columns df2') 2 = Some c.
Proof.
  apply (reduce_dtypes_int_type_irrelevant 128 mixed_table mixed_table_reordered false
           0 2 "a" int64 int32 [1; 127; -128]).
  - distinct_labels.
  - distinct_labels.
  - reflexivity.
  - reflexivity.
  - reflexivity.
  - reflexivity.
  - reflexivity.
Defined.

Lemma reduce_dtypes_column_alone_mixed :
  exists df1' out1 df2' out2 s',
    reduce_dtypes 128 mixed_table true = Some (df1', out1) /\
    reduce_dtypes 0 mixed_table_reordered false = Some (df2', out2) /\
    nth_error (columns df1') 1 = Some ("b", s') /\
    nth_error (columns df2') 1 = Some ("b", s').
Proof.
  apply (reduce_dtypes_column_alone 128 0 mixed_table mixed_table_reordered true false
           1 1 "b" "b" (FloatSeries float64 [f64 1; f64 2049; f64 (-3)])).
  - distinct_labels.
  - distinct_labels.
  - reflexivity.
  - reflexivity.
Defined.

Lemma reduce_dtypes_float16_inf :
  exists df' out,
    reduce_dtypes 128 table_float16_inf false = Some (df', out) /\
    nth_error (columns df') 0 =
      Some ("y", FloatSeries float64
                   (map (astype_float float64)
                        [float_of_Z float16 1; S754_infinity false])).
Proof.
  apply (reduce_dtypes_float_no_range 128 table_float16_inf false 0 "y" float16
           [float_of_Z float16 1; S754_infinity false]).
  - distinct_labels.
  - reflexivity.
  - left. exists false. simpl. auto.
Defined.

Lemma reduce_dtypes_keeps_missing_mixed :
  exists df' out s',
    reduce_dtypes 128 mixed_table false = Some (df', out) /\
    nth_error (columns df') 4 = Some ("e", s') /\
    forall r,
      isna s' r =
      isna (FloatSeries float32 [float_of_Z float32 5; nan; float_of_Z float32 70000]) r.
Proof.
  apply (reduce_dtypes_keeps_missing 128 mixed_table false 4 "e"
           (FloatSeries float32 [float_of_Z float32 5; nan; float_of_Z float32 70000])).
  - distinct_labels.
  - reflexivity.
Defined.

Lemma size_of_fmt_minus_5 : size_of_fmt (PyInt (-5)) "B" = Some "-5.0B".
Proof.
  rewrite (size_of_fmt_below_1024 (-5) "B"); [reflexivity | lia].
Defined.

Lemma size_of_fmt_minus_5000 :
  size_of_fmt (PyInt (- 5000)) "B" =
  option_map (String.append "-") (size_of_fmt (PyInt 5000) "B").
Proof. apply (size_of_fmt_negative 5000 "B"). lia. Defined.


Lemma merge_by_concat_row_count_repeated :
  exists r,
    merge_by_concat refuse_keys primary secondary_repeated ["id"] = Some r /\
    index_len r = 2%nat.
Proof.
  destruct (merge_by_concat_row_count refuse_keys primary secondary_repeated ["id"]
              [IntSeries int64 [1]] [IntSeries int64 [1; 1]]
              [IntSeries int64 [1]] [IntSeries int64 [1; 1]])
    as (r & H1 & H2 & _).
  - discriminate.
  - distinct_labels.
  - distinct_labels.
  - reflexivity.
  - reflexivity.
  - reflexivity.
  - exists r. split; [exact H1|]. rewrite H2. reflexivity.
Defined.

Lemma merge_by_concat_full_match_example :
  exists r new,
    merge_by_concat refuse_keys primary secondary_match ["id"] = Some r /\
    index_len r = index_len primary /\
    columns r = columns primary ++ new /\
    Forall2 (fun c' c =>
               fst c' = fst c /\
               dtypes (snd c') = dtypes (snd c) /\
               len (snd c') = index_len primary /\
               forall i j, (i < index_len primary)%nat ->
                           matches [IntSeries int64 [1]] [IntSeries int64 [1]]
                                   (index_len secondary_match) i = [j] ->
                           iloc (snd c') i = iloc (snd c) j)
            new
            (filter (fun c => negb (str_in (fst c) ["id"])) (columns secondary_match)).
Proof.
  apply (merge_by_concat_full_match refuse_keys primary secondary_match ["id"]
           [IntSeries int64 [1]] [IntSeries int64 [1]]
           [IntSeries int64 [1]] [IntSeries int64 [1]]).
  - discriminate.
  - distinct_labels.
  - distinct_labels.
  - reflexivity.
  - reflexivity.
  - reflexivity.
  - intros c Hc. simpl in Hc.
    repeat (destruct Hc as [Hc|Hc]; [subst c; reflexivity|]). contradiction.
  - intros i Hi. simpl in Hi. assert (i = O) by lia. subst i. reflexivity.
Defined.

Lemma merge_by_concat_unmatched_upcasts_example :
  exists r new,
    merge_by_concat refuse_keys primary secondary_no_match ["id"] = Some r /\
    columns r = columns primary ++ new /\
    forall l t v,
      In (l, IntSeries t v) (columns secondary_no_match) ->
      str_in l ["id"] = false ->
      exists w, In (l, FloatSeries float64 w) new /\
                List.length w = index_len primary /\
                nth_error w 0 = Some nan.
Proof.
  apply (merge_by_concat_unmatched_upcasts refuse_keys primary secondary_no_match
           ["id"] [IntSeries int64 [1]] [IntSeries int64 [2]]
           [IntSeries int64 [1]] [IntSeries int64 [2]] 0).
  - discriminate.
  - distinct_labels.
  - distinct_labels.
  - reflexivity.
  - reflexivity.
  - reflexivity.
  - intros i Hi. simpl in Hi. assert (i = O) by lia. subst i. vm_compute. lia.
  - simpl. lia.
  - reflexivity.
Defined.

Lemma reduce_dtypes_wf_mixed :
  exists df' out,
    reduce_dtypes 128 mixed_table true = Some (df', out) /\ wf_table df' = true.
Proof. apply (reduce_dtypes_wf 128 mixed_table true). reflexivity. Defined.

Lemma merge_by_concat_same_dtypes_match :
  merge_by_concat accept_keys primary secondary_match ["id"] =
  Some (mkDataFrame 1
          [("id", IntSeries int64 [1]); ("a", IntSeries int64 [10]);
           ("b", IntSeries int64 [20])]).
Proof.
  rewrite (merge_by_concat_same_dtypes accept_keys primary secondary_match ["id"]
             [IntSeries int64 [1]] [IntSeries int64 [1]]).
  - vm_compute. reflexivity.
  - discriminate.
  - distinct_labels.
  - distinct_labels.
  - reflexivity.
  - reflexivity.
  - repeat constructor.
Defined.

Lemma merge_by_concat_datetime_key_dated :
  merge_by_concat accept_keys primary secondary_dated ["id"] = None.
Proof.
  apply (merge_by_concat_datetime_key accept_keys primary secondary_dated ["id"] "id"
           (IntSeries int64 [1]) (ObjSeries datetime64 [Some "2020-01-01"])).
  - simpl. auto.
  - reflexivity.
  - reflexivity.
  - discriminate.
  - discriminate.
  - discriminate.
Defined.
